(** * Disaster news monitor: the ingestion filters and the merge step

    A shallow embedding of [src/scraper/filters.py], [src/scraper/config.py]
    and of the data-frame steps of [src/scraper/google_news_scraper.py]
    ([process_datetime], [deduplicate], [merge_with_existing]).

    Text.  A Python [str] is a sequence of code points.  The embedding
    covers the texts whose code points are below 256 (Latin-1): a Rocq
    [string] is read as such a sequence, one [ascii] per code point.  On
    that alphabet [str.lower], [str.isspace], [str.title] and the
    regular-expression classes [\s], [\w] and [\b] are given by the tables
    of module [Latin1] below; they agree with Python on each of the 256
    code points, but for the title-case forms of U+00B5 and U+00FF, which
    lie above U+00FF.

    Frames.  A pandas data frame is the list of its rows; the parser
    [pd.to_datetime] is a parameter, one parser for each column that is
    parsed.  The steps that change the counters of the scraper object or
    append to a side log are functions on an explicit state
    ([Scraper.World]); a step that can raise returns an [Outcome]. *)

From Stdlib Require Import Bool Arith NArith ZArith Lia List.
From Stdlib Require Import Ascii String.
From Stdlib Require Import Permutation Sorted.
Import ListNotations.

Local Open Scope list_scope.
Local Open Scope string_scope.

(* ------------------------------------------------------------------ *)
(** ** Code points and the character classes of Python on Latin-1 *)

Module Latin1.

Definition cp (c : ascii) : N := N_of_ascii c.

Definition between (lo hi n : N) : bool := (N.leb lo n && N.leb n hi)%bool.

(** [str.lower] on one code point: A-Z and the upper-case letters
    U+00C0..U+00DE move up by 32; U+00D7 (the multiplication sign) has no
    case. *)
Definition lower_char (c : ascii) : ascii :=
  let n := cp c in
  if (between 65 90 n || (between 192 222 n && negb (N.eqb n 215)))%bool
  then ascii_of_N (n + 32) else c.

(** [str.isspace], which is also the class [\s] of [re] on [str]. *)
Definition is_space (c : ascii) : bool :=
  let n := cp c in
  (between 9 13 n || between 28 32 n || N.eqb n 133 || N.eqb n 160)%bool.

(** Unicode letters below 256 (general categories Lu, Ll and Lo). *)
Definition is_letter (c : ascii) : bool :=
  let n := cp c in
  (between 65 90 n || between 97 122 n
   || N.eqb n 170 || N.eqb n 181 || N.eqb n 186
   || between 192 214 n || between 216 246 n || between 248 255 n)%bool.

Definition is_ascii_digit (c : ascii) : bool := between 48 57 (cp c).

(** The class [\w] of [re] on [str]: [str.isalnum] or the underscore.
    Below 256 the alphanumerics are the letters, the digits 0-9, the
    superscripts U+00B2, U+00B3, U+00B9 and the fractions
    U+00BC..U+00BE. *)
Definition is_word (c : ascii) : bool :=
  let n := cp c in
  (is_letter c || is_ascii_digit c || N.eqb n 95
   || N.eqb n 178 || N.eqb n 179 || N.eqb n 185 || between 188 190 n)%bool.

(** Cased characters, as [str.title] tests them. *)
Definition is_cased (c : ascii) : bool := is_letter c.

(** Title-case form of one code point.  U+00DF maps to the two
    characters "Ss".  The title-case forms of U+00B5 and U+00FF lie above
    U+00FF, outside the alphabet of this embedding; they are left in place
    here, and nothing below depends on them. *)
Definition title_char (c : ascii) : string :=
  let n := cp c in
  if (between 97 122 n || (between 224 254 n && negb (N.eqb n 247)))%bool
  then String (ascii_of_N (n - 32)) EmptyString
  else if N.eqb n 223 then "Ss"
  else String c EmptyString.

End Latin1.

(* ------------------------------------------------------------------ *)
(** ** The [str] operations the filters use *)

Module Str.

Import Latin1.

Fixpoint map_chars (f : ascii -> ascii) (s : string) : string :=
  match s with
  | EmptyString => EmptyString
  | String c r => String (f c) (map_chars f r)
  end.

(** [s.lower()] *)
Definition lower (s : string) : string := map_chars lower_char s.

Fixpoint forallb_chars (p : ascii -> bool) (s : string) : bool :=
  match s with
  | EmptyString => true
  | String c r => (p c && forallb_chars p r)%bool
  end.

Definition head (s : string) : option ascii :=
  match s with
  | EmptyString => None
  | String c _ => Some c
  end.

(** Last character of [s], or [d] for the empty string. *)
Fixpoint last_or (d : option ascii) (s : string) : option ascii :=
  match s with
  | EmptyString => d
  | String c r => last_or (Some c) r
  end.

(** [strip_prefix p s] is what follows [p] in [s] when [s] starts with
    [p]. *)
Fixpoint strip_prefix (p s : string) : option string :=
  match p with
  | EmptyString => Some s
  | String a p' =>
      match s with
      | EmptyString => None
      | String b s' => if Ascii.eqb a b then strip_prefix p' s' else None
      end
  end.

Definition starts_with (p s : string) : bool :=
  match strip_prefix p s with Some _ => true | None => false end.

(** [kw in text]: [kw] occurs in [text] at some position. *)
Fixpoint contains (kw text : string) : bool :=
  (starts_with kw text
   || match text with
      | EmptyString => false
      | String _ r => contains kw r
      end)%bool.

(** What [kw in text] means: [text] splits around an occurrence of [kw]. *)
Definition Substring (kw text : string) : Prop :=
  exists pre post, text = pre ++ kw ++ post.

(** [s.replace(old, new)]: occurrences are found left to right and do not
    overlap; [skip] counts the characters of the occurrence just replaced
    that are still to be passed over. *)
Fixpoint replace_from (old new : string) (skip : nat) (s : string) : string :=
  match s with
  | EmptyString =>
      match old with EmptyString => new | _ => EmptyString end
  | String c r =>
      match skip with
      | S k => replace_from old new k r
      | O =>
          match old with
          | EmptyString => new ++ String c (replace_from old new 0 r)
          | _ =>
              if starts_with old s
              then new ++ replace_from old new (String.length old - 1) r
              else String c (replace_from old new 0 r)
          end
      end
  end.

Definition replace (old new s : string) : string := replace_from old new 0 s.

(** [s.title()]: a character that follows a cased character is lower-cased,
    any other is title-cased. *)
Fixpoint title_from (previous_is_cased : bool) (s : string) : string :=
  match s with
  | EmptyString => EmptyString
  | String c r =>
      (if previous_is_cased
       then String (lower_char c) EmptyString
       else title_char c) ++ title_from (is_cased c) r
  end.

Definition title (s : string) : string := title_from false s.

(** [s.strip()] *)
Fixpoint lstrip (s : string) : string :=
  match s with
  | EmptyString => EmptyString
  | String c r => if is_space c then lstrip r else s
  end.

Fixpoint rstrip (s : string) : string :=
  match s with
  | EmptyString => EmptyString
  | String c r =>
      match rstrip r with
      | EmptyString => if is_space c then EmptyString else String c EmptyString
      | r' => String c r'
      end
  end.

Definition strip (s : string) : string := rstrip (lstrip s).

End Str.

(* ------------------------------------------------------------------ *)
(** ** The two regular expressions of [LocationFilter]

    [re.search] answers whether the pattern matches at some position of
    the text.  [\b] holds between two positions exactly one of which is a
    word character; the start and the end of the text count as non-word. *)

Module Re.

Import Latin1 Str.

Definition word_at (c : option ascii) : bool :=
  match c with
  | Some a => is_word a
  | None => false
  end.

(** [\b] between the character before and the character after. *)
Definition boundary (before after : option ascii) : bool :=
  xorb (word_at before) (word_at after).

(** [\b] + [re.escape(lit)] + [\b], tried at the current position; [prev]
    is the character just before it. *)
Definition match_word_here (lit : string) (prev : option ascii) (s : string)
  : bool :=
  (boundary prev (head s)
   && match strip_prefix lit s with
      | Some rest => boundary (last_or prev lit) (head rest)
      | None => false
      end)%bool.

(** [re.search]: the pattern is tried at every position, left to right;
    [here prev s] tries it on the rest [s] of the text, [prev] being the
    character just before. *)
Fixpoint search_from (here : option ascii -> string -> bool)
  (prev : option ascii) (s : string) : bool :=
  (here prev s
   || match s with
      | EmptyString => false
      | String c r => search_from here (Some c) r
      end)%bool.

(** [re.search(r'\b' + re.escape(lit) + r'\b', text)] as a truth value. *)
Definition search_word (lit text : string) : bool :=
  search_from (match_word_here lit) None text.

(** [\s+] followed by the continuation [k]: one or more white-space
    characters, longest first, giving characters back until [k] accepts. *)
Fixpoint ws_plus (k : string -> bool) (s : string) : bool :=
  match s with
  | EmptyString => false
  | String c r => if is_space c then (ws_plus k r || k r)%bool else false
  end.

(** [\bdi\s+indonesia\b] tried at the current position. *)
Definition match_di_indonesia_here (prev : option ascii) (s : string) : bool :=
  (boundary prev (head s)
   && match strip_prefix "di" s with
      | Some r1 =>
          ws_plus
            (fun r2 =>
               match strip_prefix "indonesia" r2 with
               | Some r3 => boundary (Some "a"%char) (head r3)
               | None => false
               end) r1
      | None => false
      end)%bool.

(** [re.search(r"\bdi\s+indonesia\b", text)] as a truth value. *)
Definition search_di_indonesia (text : string) : bool :=
  search_from match_di_indonesia_here None text.

(** What the two searches mean.  [WordMatch lit text]: an occurrence of
    [lit] in [text] with a word boundary on each side. *)
Definition WordMatch (lit text : string) : Prop :=
  exists pre post,
    text = pre ++ lit ++ post
    /\ boundary (last_or None pre) (head (lit ++ post)) = true
    /\ boundary (last_or (last_or None pre) lit) (head post) = true.

(** [DiIndonesiaMatch text]: the word "di", one or more white-space
    characters, the word "indonesia", with no word character just before
    or just after. *)
Definition DiIndonesiaMatch (text : string) : Prop :=
  exists pre ws post,
    text = pre ++ "di" ++ ws ++ "indonesia" ++ post
    /\ ws <> EmptyString
    /\ forallb_chars is_space ws = true
    /\ word_at (last_or None pre) = false
    /\ word_at (head post) = false.

End Re.

(* ------------------------------------------------------------------ *)
(** ** [config.py]: the keyword tables *)

Module Config.

Definition DISASTER_KEYWORDS : list string :=
  [ "bencana alam"; "banjir"; "banjir bandang"; "banjir rob";
    "gelombang pasang"; "abrasi pantai"; "tanah longsor"; "longsor";
    "gempa bumi"; "gempa"; "tsunami"; "kekeringan"; "kebakaran hutan";
    "kebakaran lahan"; "kebakaran permukiman"; "kebakaran rumah";
    "angin puting beliung"; "angin kencang"; "puting beliung";
    "erupsi gunung api"; "erupsi"; "gunung meletus"; "epidemi";
    "wabah penyakit"; "keracunan massal"; "keracunan"; "kecelakaan kapal";
    "kecelakaan laut"; "kecelakaan pesawat"; "konflik sosial";
    "bentrok warga" ].

Definition NEGATIVE_KEYWORDS : list string :=
  [ "real madrid"; "barcelona"; "liga"; "serie a"; "serie-a";
    "premier league"; "bundesliga"; "laliga"; "liga champions";
    "liga inggris"; "liga spanyol"; "como"; "gol"; "pemain"; "pelatih";
    "transfer"; "musim depan"; "popda"; "porprov"; "juara umum"; "turnamen";
    "kompetisi"; "kualifikasi";
    "film"; "trailer"; "serial"; "episode"; "tayang"; "premiere";
    "festival film"; "series"; "drama korea"; "drakor"; "konser"; "artis";
    "aktor"; "aktris";
    "target juara"; "pasang target"; "target capaian"; "pilkada"; "pileg";
    "pilpres"; "kampanye"; "caleg"; "dprd"; "dpr ri"; "menteri"; "presiden";
    "pemilu"; "pilkada serentak"; "debat capres"; "debat cawapres";
    "cabul"; "asusila"; "pelecehan"; "cctv di kamar mandi";
    "proyek turap"; "penopang jalan"; "poros ekonomi"; "investasi"; "saham";
    "ihsg"; "obligasi"; "inflasi"; "bursa"; "pajak"; "ekonomi tumbuh";
    "judol"; "judi online"; "perjudian"; "narkoba"; "bandar narkoba" ].

Definition EPIDEMIC_CONTEXT : list string :=
  [ "penyakit"; "virus"; "bakteri"; "epidemi"; "endemik"; "pandemi";
    "flu"; "diare"; "dbd"; "demam berdarah"; "covid"; "covid-19";
    "hepatitis"; "polio"; "rabies"; "infeksi"; "positif"; "kasus";
    "pasien"; "rumah sakit"; "isolasi"; "karantina"; "vaksin"; "imunisasi" ].

End Config.

(* ------------------------------------------------------------------ *)
(** ** Values handed to the filters

    The filters receive whatever a data-frame cell holds.  [Some s] is a
    [str]; [None] is any other value (a missing cell, [None], a number),
    which the [isinstance(_, str)] tests tell apart. *)

Definition cell := option string.

Definition str_or_empty (v : cell) : string :=
  match v with
  | Some s => s
  | None => EmptyString
  end.

(** [any(kw in text for kw in keywords)] *)
Definition any_in (keywords : list string) (text : string) : bool :=
  existsb (fun kw => Str.contains kw text) keywords.

(* ------------------------------------------------------------------ *)
(** ** [filters.py]: [DisasterFilter] *)

Module DisasterFilter.

Import Config.

Definition epidemic_terms : list string := [ "wabah"; "epidemi"; "pandemi" ].

(** The text both methods look at: [f"{judul} {ringkasan}".lower()]. *)
Definition text_of (judul ringkasan : string) : string :=
  Str.lower (judul ++ " " ++ ringkasan).

Definition is_disaster_event (judul ringkasan : cell) : bool :=
  let text := text_of (str_or_empty judul) (str_or_empty ringkasan) in
  let has_disaster_keyword := any_in DISASTER_KEYWORDS text in
  if negb has_disaster_keyword then false
  else
    let has_negative_keyword := any_in NEGATIVE_KEYWORDS text in
    if has_negative_keyword then false
    else if any_in epidemic_terms text
         then
           let has_epidemic_context := any_in EPIDEMIC_CONTEXT text in
           if negb has_epidemic_context then false else true
         else true.

(** The category table, in the order the dictionary literal declares it
    (a [dict] iterates in insertion order). *)
Definition disaster_categories : list (string * list string) :=
  [ ("Banjir", ["banjir"; "banjir bandang"; "banjir rob"]);
    ("Gempa Bumi", ["gempa bumi"; "gempa"; "lindu"]);
    ("Tsunami", ["tsunami"]);
    ("Tanah Longsor", ["tanah longsor"; "longsor"]);
    ("Kebakaran", ["kebakaran hutan"; "kebakaran lahan"; "kebakaran rumah";
                   "kebakaran permukiman"]);
    ("Angin Kencang", ["angin puting beliung"; "angin kencang";
                       "puting beliung"]);
    ("Erupsi Gunung Api", ["erupsi"; "gunung meletus"; "erupsi gunung api"]);
    ("Kekeringan", ["kekeringan"]);
    ("Epidemi", ["wabah"; "epidemi"; "pandemi"]);
    ("Kecelakaan", ["kecelakaan kapal"; "kecelakaan laut";
                    "kecelakaan pesawat"]);
    ("Konflik Sosial", ["konflik sosial"; "bentrok warga"]) ].

(** The loop of [get_disaster_type] over the remaining table entries. *)
Fixpoint first_category (table : list (string * list string)) (text : string)
  : string :=
  match table with
  | [] => "Lainnya"
  | (category, keywords) :: rest =>
      if any_in keywords text then category else first_category rest text
  end.

(** [get_disaster_type] formats its arguments into the text without an
    [isinstance] test; it is embedded on [str] arguments. *)
Definition get_disaster_type (judul ringkasan : string) : string :=
  first_category disaster_categories (text_of judul ringkasan).

End DisasterFilter.

(* ------------------------------------------------------------------ *)
(** ** [filters.py]: [LocationFilter] *)

Module LocationFilter.

(** The list [_load_lokasi_keywords] falls back to when the gazetteer file
    is absent. *)
Definition fallback_lokasi_keywords : list string :=
  [ "indonesia"; "jakarta"; "jawa"; "sumatera"; "kalimantan";
    "sulawesi"; "papua"; "bali"; "ntt"; "ntb"; "maluku" ].

(** [sorted(xs, key=len, reverse=True)]: a stable sort, so entries of equal
    length keep their order. *)
Fixpoint insert_by_len (x : string) (l : list string) : list string :=
  match l with
  | [] => [x]
  | y :: l' =>
      if Nat.ltb (String.length x) (String.length y)
      then y :: insert_by_len x l'
      else x :: l
  end.

Fixpoint sorted_by_len_desc (l : list string) : list string :=
  match l with
  | [] => []
  | x :: l' => insert_by_len x (sorted_by_len_desc l')
  end.

(** The [for lokasi in sorted_locations] loop. *)
Fixpoint scan_locations (locations : list string) (text_lower : string)
  : string :=
  match locations with
  | [] => EmptyString
  | lokasi :: rest =>
      if String.eqb lokasi "indonesia" then scan_locations rest text_lower
      else if Re.search_word lokasi text_lower then Str.title lokasi
      else scan_locations rest text_lower
  end.

Section WithGazetteer.

(** [self.lokasi_keywords]: the gazetteer file is not part of the sources,
    so the list it yields is a parameter. *)
Variable lokasi_keywords : list string.

Definition extract_location (judul ringkasan : cell) : string :=
  let text_full := str_or_empty judul ++ " " ++ str_or_empty ringkasan in
  let text_lower := Str.lower text_full in
  if Re.search_di_indonesia text_lower then "Indonesia"
  else scan_locations (sorted_by_len_desc lokasi_keywords) text_lower.

(** [bool(lokasi)]: a [str] is true when it is not empty. *)
Definition is_in_indonesia (judul ringkasan : cell) : bool :=
  let lokasi := extract_location judul ringkasan in
  negb (String.eqb lokasi EmptyString).

End WithGazetteer.

End LocationFilter.

(* ------------------------------------------------------------------ *)
(** ** [filters.py]: [TextNormalizer] *)

Module TextNormalizer.

Import Latin1.

(** The characters the class
    [[^0-9a-zA-Z\u00C0-\u024F\u1E00-\u1EFF\s]] does not match, below 256. *)
Definition kept_char (c : ascii) : bool :=
  let n := cp c in
  (between 48 57 n || between 97 122 n || between 65 90 n
   || between 192 255 n || is_space c)%bool.

(** [re.sub(class, " ", t)] *)
Definition blank_special (t : string) : string :=
  Str.map_chars (fun c => if kept_char c then c else " "%char) t.

(** [re.sub(r"\s+", " ", t)]: [in_run] tells that the previous character
    was white space, already replaced. *)
Fixpoint collapse_from (in_run : bool) (t : string) : string :=
  match t with
  | EmptyString => EmptyString
  | String c r =>
      if is_space c
      then if in_run then collapse_from true r
           else String " "%char (collapse_from true r)
      else String c (collapse_from false r)
  end.

Definition collapse_spaces (t : string) : string := collapse_from false t.

Definition normalize_title (title : cell) : string :=
  match title with
  | None => EmptyString
  | Some title =>
      let t := Str.lower title in
      let t := blank_special t in
      let t := Str.strip (collapse_spaces t) in
      t
  end.

(** [not domain] holds for [None] and for the empty string. *)
Definition clean_domain (domain : cell) : string :=
  match domain with
  | None => "unknown"
  | Some EmptyString => "unknown"
  | Some domain =>
      let domain := Str.replace "www." EmptyString domain in
      let domain := Str.lower domain in
      domain
  end.

End TextNormalizer.

(* ------------------------------------------------------------------ *)
(** ** [google_news_scraper.py]: the data-frame steps

    A data frame is the list of its rows, in index order.  A row carries
    the columns these steps read or write; a cell that holds no text is
    [None] (a missing value), and [drop_duplicates] takes two missing
    values to be equal.  The columns [datetime_utc] and [datetime_wib]
    hold an instant ([None] is NaT); [tz_convert] changes the zone an
    instant is shown in and not the instant, so both hold the same
    number.  The three columns formatted from [datetime_wib] with
    [strftime] are functions of it and are left out.  A frame with a row
    is taken to have the columns of [Row] these steps ask for, but that a
    historical file may lack [judul] or [judul_bersih]; the two columns
    the merge asks for whether there are rows or not, [judul] and
    [datetime_wib], are recorded with the table and the frame. *)

Module Scraper.

Record Row : Type := mkRow {
  judul : cell;
  link : cell;
  ringkasan : cell;
  tanggal_publikasi : cell;
  judul_bersih : cell;
  datetime_utc : option Z;
  datetime_wib : option Z;
  (** the remaining columns, which these steps carry along *)
  other_columns : list (string * cell)
}.

Definition set_judul_bersih (v : cell) (r : Row) : Row :=
  mkRow (judul r) (link r) (ringkasan r) (tanggal_publikasi r) v
        (datetime_utc r) (datetime_wib r) (other_columns r).

Definition set_datetime_utc (v : option Z) (r : Row) : Row :=
  mkRow (judul r) (link r) (ringkasan r) (tanggal_publikasi r)
        (judul_bersih r) v (datetime_wib r) (other_columns r).

Definition set_datetime_wib (v : option Z) (r : Row) : Row :=
  mkRow (judul r) (link r) (ringkasan r) (tanggal_publikasi r)
        (judul_bersih r) (datetime_utc r) v (other_columns r).

(** [self.stats] *)
Record Stats : Type := mkStats {
  articles_fetched : nat;
  articles_after_location_filter : nat;
  articles_after_disaster_filter : nat;
  articles_after_dedup : nat;
  articles_with_invalid_dates : nat;
  keywords_scraped : nat;
  keywords_failed : nat
}.

Definition set_articles_after_dedup (n : nat) (s : Stats) : Stats :=
  mkStats (articles_fetched s) (articles_after_location_filter s)
          (articles_after_disaster_filter s) n
          (articles_with_invalid_dates s) (keywords_scraped s)
          (keywords_failed s).

Definition set_articles_with_invalid_dates (n : nat) (s : Stats) : Stats :=
  mkStats (articles_fetched s) (articles_after_location_filter s)
          (articles_after_disaster_filter s) (articles_after_dedup s) n
          (keywords_scraped s) (keywords_failed s).

(** A line of a side log: the skipped row with the two columns
    [_save_skipped_articles] adds. *)
Record SkippedRow : Type := mkSkipped {
  skipped_row : Row;
  skipped_at : string;
  skip_reason : string
}.

(** What the steps read and change besides their arguments: the counters
    of the scraper object, the two side-log files (a file that does not
    exist yet reads as no lines), and the clock. *)
Record World : Type := mkWorld {
  stats : Stats;
  invalid_dates_log : list SkippedRow;
  skipped_articles_log : list SkippedRow;
  (** [datetime.now(timezone.utc).isoformat()] *)
  clock : string
}.

(** State passing. *)
Definition M (A : Type) : Type := World -> A * World.

Definition ret {A : Type} (a : A) : M A := fun w => (a, w).

Definition bind {A B : Type} (m : M A) (k : A -> M B) : M B :=
  fun w => let (a, w') := m w in k a w'.

Definition modify (f : World -> World) : M unit := fun w => (tt, f w).

Notation "x <- m ;; k" := (bind m (fun x => k))
  (at level 61, m at next level, right associativity).
Notation "m ;;; k" := (bind m (fun _ => k))
  (at level 61, right associativity).

Definition set_stats (f : Stats -> Stats) : M unit :=
  modify (fun w => mkWorld (f (stats w)) (invalid_dates_log w)
                           (skipped_articles_log w) (clock w)).

(** [_save_skipped_articles]: the rows, stamped with the time and the
    reason, are appended to the log the reason selects. *)
Definition _save_skipped_articles (df : list Row) (reason : string) : M unit :=
  modify (fun w =>
    let df_log := map (fun r => mkSkipped r (clock w) reason) df in
    if String.eqb reason "invalid_dates"
    then mkWorld (stats w) (invalid_dates_log w ++ df_log)%list
                 (skipped_articles_log w) (clock w)
    else mkWorld (stats w) (invalid_dates_log w)
                 (skipped_articles_log w ++ df_log)%list (clock w)).

Definition is_empty {A : Type} (df : list A) : bool :=
  match df with [] => true | _ => false end.

Definition isna (v : option Z) : bool :=
  match v with None => true | Some _ => false end.

Definition notna (v : option Z) : bool := negb (isna v).

(** The key of [drop_duplicates(subset=["link", "judul_bersih"])]. *)
Definition dedup_key (r : Row) : cell * cell := (link r, judul_bersih r).

Definition cell_eqb (a b : cell) : bool :=
  match a, b with
  | Some x, Some y => String.eqb x y
  | None, None => true
  | _, _ => false
  end.

Definition key_eqb (a b : cell * cell) : bool :=
  (cell_eqb (fst a) (fst b) && cell_eqb (snd a) (snd b))%bool.

Definition key_in (k : cell * cell) (seen : list (cell * cell)) : bool :=
  existsb (key_eqb k) seen.

(** [drop_duplicates] keeps, of the rows with one key, the first. *)
Fixpoint drop_duplicates_from (seen : list (cell * cell)) (df : list Row)
  : list Row :=
  match df with
  | [] => []
  | r :: rest =>
      if key_in (dedup_key r) seen
      then drop_duplicates_from seen rest
      else r :: drop_duplicates_from (dedup_key r :: seen) rest
  end.

Definition drop_duplicates (df : list Row) : list Row :=
  drop_duplicates_from [] df.

(** [sort_values("datetime_wib", ascending=False)]: later instants first,
    NaT last.  The sort pandas uses by default is not stable, so the order
    of rows with one instant among themselves is not fixed by the source.
    The insertion sort below keeps them in their order; the statements
    about it say that the result is a permutation of the frame in
    descending order, and the examples have rows with distinct instants. *)
Definition later_or_same (a b : option Z) : bool :=
  match a, b with
  | Some x, Some y => (y <=? x)%Z
  | Some _, None => true
  | None, Some _ => false
  | None, None => true
  end.

Fixpoint insert_by_time (r : Row) (df : list Row) : list Row :=
  match df with
  | [] => [r]
  | r' :: rest =>
      if later_or_same (datetime_wib r) (datetime_wib r')
      then r :: df
      else r' :: insert_by_time r rest
  end.

Fixpoint sort_values_desc (df : list Row) : list Row :=
  match df with
  | [] => []
  | r :: rest => insert_by_time r (sort_values_desc rest)
  end.

(** The historical CSV as [pd.read_csv] loads it: its rows, and which of
    the columns [judul], [judul_bersih] and [datetime_wib] it has.  A file
    with a header and no row loads as a table with columns and no rows. *)
Record Table : Type := mkTable {
  has_judul : bool;
  has_judul_bersih : bool;
  has_datetime_wib : bool;
  rows : list Row
}.

(** The frame handed to [merge_with_existing]: its rows, and whether it
    has the column [datetime_wib].  A frame with no row has the columns it
    was built with, and [pd.DataFrame([])] has none. *)
Record Frame : Type := mkFrame {
  frame_has_datetime_wib : bool;
  frame_rows : list Row
}.

(** A step that can raise gives its value or the exception. *)
Inductive Exception : Type :=
| KeyError (key : string).

Inductive Outcome (A : Type) : Type :=
| Returned (a : A)
| Raised (e : Exception).

Arguments Returned {A} a.
Arguments Raised {A} e.

Section WithParser.

(** [pd.to_datetime(_, utc=True, errors="coerce")] on the date column of
    one call, cell by cell: the instant, or [None] (NaT) for a cell that
    does not parse.  pandas settles how to read the cells on the column as
    a whole, so [to_datetime] is the parser of the one column the call
    works on; a call on another frame has a parser of its own (see
    [merge_with_existing] and [Pipeline.run]).  The parser belongs to
    pandas and is a parameter here. *)
Variable to_datetime : cell -> option Z.

Definition process_datetime (df : list Row) : M (list Row) :=
  if is_empty df then ret df
  else
    let df :=
      map (fun r => set_datetime_utc (to_datetime (tanggal_publikasi r)) r) df in
    let invalid_dates := filter (fun r => isna (datetime_utc r)) df in
    set_stats (set_articles_with_invalid_dates (List.length invalid_dates)) ;;;
    (if negb (is_empty invalid_dates)
     then _save_skipped_articles invalid_dates "invalid_dates"
     else ret tt) ;;;
    let df := filter (fun r => notna (datetime_utc r)) df in
    let df := map (fun r => set_datetime_wib (datetime_utc r) r) df in
    ret df.

Definition deduplicate (df : list Row) : M (list Row) :=
  if is_empty df then ret df
  else
    let df := drop_duplicates df in
    let after_dedup := List.length df in
    set_stats (set_articles_after_dedup after_dedup) ;;;
    ret df.

End WithParser.

(** The first half of [merge_with_existing]: [existing] is the historical
    file, [None] when it does not exist.  [df_old["judul"]] raises
    [KeyError('judul')] when the file has no such column.  The
    concatenation has the columns of both frames. *)
Definition load_and_concat (existing : option Table) (df_new : Frame)
  : Outcome Frame :=
  match existing with
  | Some df_old =>
      if negb (has_judul_bersih df_old)
      then
        if has_judul df_old
        then
          let old_rows :=
            map (fun r =>
                   set_judul_bersih
                     (Some (TextNormalizer.normalize_title (judul r))) r)
                (rows df_old) in
          Returned
            (mkFrame
               (has_datetime_wib df_old || frame_has_datetime_wib df_new)%bool
               (old_rows ++ frame_rows df_new)%list)
        else Raised (KeyError "judul")
      else
        Returned
          (mkFrame
             (has_datetime_wib df_old || frame_has_datetime_wib df_new)%bool
             (rows df_old ++ frame_rows df_new)%list)
  | None => Returned df_new
  end.

Section WithColumnParser.

(** [pd.to_datetime] as it depends on the column: [to_datetime column] is
    the parser of the cells of [column]. *)
Variable to_datetime : list cell -> cell -> option Z.

(** [merge_with_existing].  The column parsed is the date column of the
    concatenation.  [process_datetime] returns a frame with no row as it
    came and adds the column [datetime_wib] to every other frame, so
    [sort_values("datetime_wib")] finds its column unless the
    concatenation has no row and had no such column; then it raises
    [KeyError('datetime_wib')]. *)
Definition merge_with_existing (existing : option Table) (df_new : Frame)
  : M (Outcome (list Row)) :=
  match load_and_concat existing df_new with
  | Raised e => ret (Raised e)
  | Returned df_all =>
      let has_column :=
        (frame_has_datetime_wib df_all
         || negb (is_empty (frame_rows df_all)))%bool in
      let column := map tanggal_publikasi (frame_rows df_all) in
      df_all <- process_datetime (to_datetime column) (frame_rows df_all) ;;
      df_all <- deduplicate df_all ;;
      if has_column
      then
        let df_all := sort_values_desc df_all in
        ret (Returned df_all)
      else ret (Raised (KeyError "datetime_wib"))
  end.

End WithColumnParser.

End Scraper.

(* ------------------------------------------------------------------ *)
(** ** [google_news_scraper.py]: from the search URL to the raw frame

    The network, [urlparse] and the feed parser are not part of the
    sources.  What they give is a parameter: [fetch_rss url] is the list
    of entries of the feed behind [url], or [None] when the request or the
    HTTP status raises; [netloc_of url] is [urlparse(url).netloc], or
    [None] when [urlparse] raises. *)

Module Feed.

Import Scraper.

(** [GOOGLE_NEWS_CONFIG] and [SCRAPING_CONFIG["time_window"]] *)
Definition GOOGLE_NEWS_hl : string := "id".
Definition GOOGLE_NEWS_gl : string := "ID".
Definition GOOGLE_NEWS_ceid : string := "ID:id".
Definition default_time_window : string := "1d".

(** [time_window or SCRAPING_CONFIG["time_window"]] of [__init__]: [None]
    and the empty string give the default. *)
Definition init_time_window (time_window : cell) : string :=
  match time_window with
  | None => default_time_window
  | Some EmptyString => default_time_window
  | Some t => t
  end.

Definition build_search_url (time_window query : string) : string :=
  let full_query := query ++ " when:" ++ time_window in
  let full_query := Str.replace " " "+" full_query in
  "https://news.google.com/rss/search?"
  ++ "q=" ++ full_query
  ++ "&hl=" ++ GOOGLE_NEWS_hl
  ++ "&gl=" ++ GOOGLE_NEWS_gl
  ++ "&ceid=" ++ GOOGLE_NEWS_ceid.

(** The six leading fields of a [time.struct_time]. *)
Record struct_time : Type := mkTime {
  tm_year : Z;
  tm_mon : Z;
  tm_mday : Z;
  tm_hour : Z;
  tm_min : Z;
  tm_sec : Z
}.

Definition is_leap (y : Z) : bool :=
  ((y mod 4 =? 0) && (negb (y mod 100 =? 0) || (y mod 400 =? 0)))%Z%bool.

Definition days_in_month (y m : Z) : Z :=
  if (m =? 2)%Z then (if is_leap y then 29 else 28)%Z
  else if ((m =? 4) || (m =? 6) || (m =? 9) || (m =? 11))%Z%bool then 30%Z
  else 31%Z.

(** The range checks of [datetime(year, month, day, hour, minute,
    second)]; outside them the constructor raises [ValueError]. *)
Definition valid_datetime (t : struct_time) : bool :=
  ((1 <=? tm_year t) && (tm_year t <=? 9999)
   && (1 <=? tm_mon t) && (tm_mon t <=? 12)
   && (1 <=? tm_mday t) && (tm_mday t <=? days_in_month (tm_year t) (tm_mon t))
   && (0 <=? tm_hour t) && (tm_hour t <=? 23)
   && (0 <=? tm_min t) && (tm_min t <=? 59)
   && (0 <=? tm_sec t) && (tm_sec t <=? 59))%Z%bool.

Definition digit (d : Z) : ascii := ascii_of_N (Z.to_N (48 + d)).

(** [%02d] and [%04d] on a number in range. *)
Definition dec2 (n : Z) : string :=
  String (digit (n / 10)) (String (digit (n mod 10)) EmptyString).

Definition dec4 (n : Z) : string := dec2 (n / 100) ++ dec2 (n mod 100).

(** [isoformat()] of the UTC [datetime] built from the six fields; [None]
    is the [ValueError] of the constructor. *)
Definition isoformat_utc (t : struct_time) : option string :=
  if valid_datetime t
  then Some (dec4 (tm_year t) ++ "-" ++ dec2 (tm_mon t) ++ "-"
             ++ dec2 (tm_mday t) ++ "T" ++ dec2 (tm_hour t) ++ ":"
             ++ dec2 (tm_min t) ++ ":" ++ dec2 (tm_sec t) ++ "+00:00")
  else None.

(** A feed entry, as the accessors of [parse_feed_entries] see it: a key
    that is absent is [None]; [published_parsed] is [None] also when the
    key is there and holds [None]; [source_title] is [entry.source.title]
    when the entry has a source with a title. *)
Record Entry : Type := mkEntry {
  entry_title : option string;
  entry_link : option string;
  entry_summary : option string;
  published_parsed : option struct_time;
  published : option string;
  source_title : option string
}.

(** One dictionary of the list [parse_feed_entries] returns. *)
Record Article : Type := mkArticle {
  a_judul : string;
  a_link : string;
  a_ringkasan : string;
  a_tanggal_publikasi : string;
  a_sumber : string;
  a_kata_kunci : string;
  a_domain : string
}.

(** The row [pd.DataFrame(all_articles)] makes of a dictionary. *)
Definition row_of_article (a : Article) : Row :=
  mkRow (Some (a_judul a)) (Some (a_link a)) (Some (a_ringkasan a))
        (Some (a_tanggal_publikasi a)) None None None
        [ ("sumber", Some (a_sumber a));
          ("kata_kunci", Some (a_kata_kunci a));
          ("domain", Some (a_domain a)) ].

Definition set_keywords_scraped (n : nat) (s : Stats) : Stats :=
  mkStats (articles_fetched s) (articles_after_location_filter s)
          (articles_after_disaster_filter s) (articles_after_dedup s)
          (articles_with_invalid_dates s) n (keywords_failed s).

Definition set_keywords_failed (n : nat) (s : Stats) : Stats :=
  mkStats (articles_fetched s) (articles_after_location_filter s)
          (articles_after_disaster_filter s) (articles_after_dedup s)
          (articles_with_invalid_dates s) (keywords_scraped s) n.

Definition set_articles_fetched (n : nat) (s : Stats) : Stats :=
  mkStats n (articles_after_location_filter s)
          (articles_after_disaster_filter s) (articles_after_dedup s)
          (articles_with_invalid_dates s) (keywords_scraped s)
          (keywords_failed s).

Section WithNetwork.

Variable netloc_of : string -> option string.
Variable fetch_rss : string -> option (list Entry).

(** [self.time_window] *)
Variable time_window : string.

Definition extract_domain (url : string) : string :=
  match netloc_of url with
  | Some netloc =>
      let domain := Str.lower netloc in
      TextNormalizer.clean_domain (Some domain)
  | None => "unknown"
  end.

(** The body of the loop of [parse_feed_entries]; [None] is the exception
    the [datetime] constructor raises. *)
Definition parse_entry (keyword : string) (entry : Entry) : option Article :=
  let published_str :=
    match published_parsed entry with
    | Some t => isoformat_utc t
    | None => Some (match published entry with
                    | Some s => s
                    | None => EmptyString
                    end)
    end in
  match published_str with
  | None => None
  | Some published_str =>
      let link := match entry_link entry with
                  | Some l => l
                  | None => EmptyString
                  end in
      let source := match source_title entry with
                    | Some t => t
                    | None => EmptyString
                    end in
      let domain := extract_domain link in
      Some (mkArticle
              (match entry_title entry with Some t => t | None => EmptyString end)
              link
              (match entry_summary entry with Some s => s | None => EmptyString end)
              published_str source keyword domain)
  end.

Fixpoint parse_feed_entries (entries : list Entry) (keyword : string)
  : option (list Article) :=
  match entries with
  | [] => Some []
  | entry :: rest =>
      match parse_entry keyword entry with
      | None => None
      | Some article =>
          match parse_feed_entries rest keyword with
          | None => None
          | Some results => Some (article :: results)
          end
      end
  end.

(** [scrape_keyword]: any exception of the three steps gives
    [([], False)]. *)
Definition scrape_keyword (keyword : string) : list Article * bool :=
  let url := build_search_url time_window keyword in
  match fetch_rss url with
  | None => ([], false)
  | Some entries =>
      match parse_feed_entries entries keyword with
      | None => ([], false)
      | Some articles => (articles, true)
      end
  end.

(** The loop of [scrape_all_keywords]. *)
Fixpoint scrape_loop (keywords : list string) (all_articles : list Article)
  : M (list Article) :=
  match keywords with
  | [] => ret all_articles
  | keyword :: rest =>
      let (articles, success) := scrape_keyword keyword in
      if success
      then
        set_stats (fun s => set_keywords_scraped (keywords_scraped s + 1) s) ;;;
        scrape_loop rest (all_articles ++ articles)%list
      else
        set_stats (fun s => set_keywords_failed (keywords_failed s + 1) s) ;;;
        scrape_loop rest all_articles
  end.

Definition scrape_all_keywords (keywords : option (list string))
  : M (list Row) :=
  let keywords := match keywords with
                  | None => Config.DISASTER_KEYWORDS
                  | Some keywords => keywords
                  end in
  all_articles <- scrape_loop keywords [] ;;
  set_stats (set_articles_fetched (List.length all_articles)) ;;;
  if is_empty all_articles then ret []
  else ret (map row_of_article all_articles).

End WithNetwork.

End Feed.

(* ------------------------------------------------------------------ *)
(** ** [google_news_scraper.py]: the filters on the frame, and [run] *)

Module Pipeline.

Import Scraper Feed.

Definition set_articles_after_location_filter (n : nat) (s : Stats) : Stats :=
  mkStats (articles_fetched s) n
          (articles_after_disaster_filter s) (articles_after_dedup s)
          (articles_with_invalid_dates s) (keywords_scraped s)
          (keywords_failed s).

Definition set_articles_after_disaster_filter (n : nat) (s : Stats) : Stats :=
  mkStats (articles_fetched s) (articles_after_location_filter s)
          n (articles_after_dedup s)
          (articles_with_invalid_dates s) (keywords_scraped s)
          (keywords_failed s).

(** [df[name] = ...] on one row: the column is overwritten where it is,
    or added after the others. *)
Fixpoint set_column (name : string) (v : cell) (columns : list (string * cell))
  : list (string * cell) :=
  match columns with
  | [] => [(name, v)]
  | (n, x) :: rest =>
      if String.eqb n name then (n, v) :: rest
      else (n, x) :: set_column name v rest
  end.

Definition set_other (name : string) (v : cell) (r : Row) : Row :=
  mkRow (judul r) (link r) (ringkasan r) (tanggal_publikasi r)
        (judul_bersih r) (datetime_utc r) (datetime_wib r)
        (set_column name v (other_columns r)).

(** How an f-string writes a cell: the text, or "nan" for a missing
    value. *)
Definition format_cell (v : cell) : string :=
  match v with
  | Some s => s
  | None => "nan"
  end.

(** [json.dump] of [save_metadata]. *)
Record Metadata : Type := mkMetadata {
  last_scrape_time : string;
  meta_time_window : string;
  statistics : Stats;
  meta_status : string
}.

(** The two files [run] writes: [None] is a file not written so far. *)
Record Files : Type := mkFiles {
  csv_output : option (list Row);
  metadata : option Metadata
}.

(** The dictionary [run] returns.  ERROR carries [str(e)] of the exception
    that reached the [except] clause.  Of the exceptions only the two
    [KeyError]s of [merge_with_existing] are embedded; those of the file
    system and of the other calls into pandas are left out. *)
Inductive RunResult : Type :=
| NO_DATA
| NO_ARTICLES_AFTER_FILTER
| NO_VALID_DATES
| SUCCESS (articles_new articles_total : nat) (statistics : Stats)
          (dataframe : list Row)
| ERROR (error : string).

(** [str(e)]: a [KeyError] prints the [repr] of its key. *)
Definition str_of_exception (e : Exception) : string :=
  match e with
  | KeyError key => "'" ++ key ++ "'"
  end.

Section WithFilters.

Variable lokasi_keywords : list string.

Definition apply_filters (df : list Row) : M (list Row) :=
  if is_empty df then ret df
  else
    let df :=
      filter (fun row =>
                LocationFilter.is_in_indonesia lokasi_keywords
                  (judul row) (ringkasan row)) df in
    set_stats (set_articles_after_location_filter (List.length df)) ;;;
    if is_empty df then ret df
    else
      let df :=
        filter (fun row =>
                  DisasterFilter.is_disaster_event (judul row) (ringkasan row))
               df in
      set_stats (set_articles_after_disaster_filter (List.length df)) ;;;
      if is_empty df then ret df
      else
        let df :=
          map (fun row =>
                 set_other "lokasi_kejadian"
                   (Some (LocationFilter.extract_location lokasi_keywords
                            (judul row) (ringkasan row))) row) df in
        let df :=
          map (fun row =>
                 set_other "jenis_bencana"
                   (Some (DisasterFilter.get_disaster_type
                            (format_cell (judul row))
                            (format_cell (ringkasan row)))) row) df in
        let df :=
          map (fun row =>
                 set_judul_bersih
                   (Some (TextNormalizer.normalize_title (judul row))) row)
              df in
        ret df.

(** [pd.to_datetime] on a date column: [to_datetime column] is the parser
    of the cells of [column].  [run] has two columns parsed, the dates of
    the filtered frame and, inside [merge_with_existing], the dates of the
    historical rows followed by the new ones; how a cell is read may
    differ between the two. *)
Variable to_datetime : list cell -> cell -> option Z.
Variable netloc_of : string -> option string.
Variable fetch_rss : string -> option (list Entry).
Variable time_window : string.

Definition save_results (df : list Row) (files : Files) : Files :=
  mkFiles (Some df) (metadata files).

Definition save_metadata (w : World) (files : Files) : Files :=
  mkFiles (csv_output files)
          (Some (mkMetadata (clock w) time_window (stats w) "SUCCESS")).

(** [run]: [existing] is what [pd.read_csv] loads from the historical
    file when the run starts, [None] when there is no file. *)
Definition run (existing : option Table) (keywords : option (list string))
  (files : Files) : M (RunResult * Files) :=
  df_raw <- scrape_all_keywords netloc_of fetch_rss time_window keywords ;;
  if is_empty df_raw then ret (NO_DATA, files)
  else
    df_filtered <- apply_filters df_raw ;;
    if is_empty df_filtered then ret (NO_ARTICLES_AFTER_FILTER, files)
    else
      df_processed <-
        process_datetime (to_datetime (map tanggal_publikasi df_filtered))
                         df_filtered ;;
      if is_empty df_processed then ret (NO_VALID_DATES, files)
      else
        merged <-
          merge_with_existing to_datetime existing
                              (mkFrame true df_processed) ;;
        match merged with
        | Raised e => ret (ERROR (str_of_exception e), files)
        | Returned df_final =>
            fun w =>
              let files := save_results df_final files in
              let files := save_metadata w files in
              (SUCCESS (articles_after_dedup (stats w)) (List.length df_final)
                       (stats w) df_final,
               files, w)
        end.

End WithFilters.

End Pipeline.

(* ------------------------------------------------------------------ *)
(** ** Facts about the [str] operations *)

Module StrFacts.

Import Latin1 Str.

Lemma strip_prefix_Some (p s r : string) :
  strip_prefix p s = Some r <-> s = p ++ r.
Proof.
  revert s; induction p as [|a p IH]; intros s; simpl.
  - split; [intros [= ->] | intros ->]; reflexivity.
  - destruct s as [|b s]; [split; discriminate|].
    destruct (Ascii.eqb_spec a b) as [->|Hab].
    + rewrite IH. split; [intros -> | intros [= ->]]; reflexivity.
    + split; [discriminate | intros [= E _]; now elim Hab].
Qed.

Lemma strip_prefix_append (p r : string) : strip_prefix p (p ++ r) = Some r.
Proof. now apply strip_prefix_Some. Qed.

Lemma starts_with_spec (p s : string) :
  starts_with p s = true <-> exists r, s = p ++ r.
Proof.
  unfold starts_with. destruct (strip_prefix p s) as [r|] eqn:E.
  - apply strip_prefix_Some in E. split; [eauto | reflexivity].
  - split; [discriminate|]. intros [r Hr].
    apply strip_prefix_Some in Hr. congruence.
Qed.

Lemma contains_spec (kw text : string) :
  contains kw text = true <-> Substring kw text.
Proof.
  unfold Substring. induction text as [|c text IH].
  - simpl. rewrite orb_false_r, starts_with_spec. split.
    + intros [r Hr]. now exists "", r.
    + intros (pre & post & E). destruct pre; [|discriminate].
      now exists post.
  - cbn [contains]. rewrite orb_true_iff, starts_with_spec, IH. split.
    + intros [[r Hr] | (pre & post & E)].
      * now exists "", r.
      * exists (String c pre), post. simpl. now rewrite E.
    + intros (pre & post & E). destruct pre as [|c' pre].
      * left. now exists post.
      * right. injection E as _ E. now exists pre, post.
Qed.

Lemma any_in_spec (keywords : list string) (text : string) :
  any_in keywords text = true
  <-> exists kw, In kw keywords /\ Substring kw text.
Proof.
  unfold any_in. rewrite existsb_exists.
  split; intros (kw & Hin & H); exists kw; split; trivial;
    now apply contains_spec.
Qed.

Lemma any_in_false (keywords : list string) (text : string) :
  any_in keywords text = false
  <-> forall kw, In kw keywords -> ~ Substring kw text.
Proof.
  split.
  - intros H kw Hin Hsub.
    assert (any_in keywords text = true) by (apply any_in_spec; eauto).
    congruence.
  - intros H. destruct (any_in keywords text) eqn:E; [|reflexivity].
    apply any_in_spec in E. destruct E as (kw & Hin & Hsub).
    now elim (H kw Hin).
Qed.

End StrFacts.

(* ------------------------------------------------------------------ *)
(** ** [DisasterFilter]: what the two methods decide *)

Module DisasterFilterFacts.

Import Config DisasterFilter StrFacts.

(** The three tests of [is_disaster_event], one after the other. *)
Lemma is_disaster_event_tests (judul ringkasan : cell) :
  let text := text_of (str_or_empty judul) (str_or_empty ringkasan) in
  is_disaster_event judul ringkasan = true
  <-> any_in DISASTER_KEYWORDS text = true
      /\ any_in NEGATIVE_KEYWORDS text = false
      /\ (any_in epidemic_terms text = true ->
          any_in EPIDEMIC_CONTEXT text = true).
Proof.
  intros text. unfold is_disaster_event. fold text.
  destruct (any_in DISASTER_KEYWORDS text); cbn [negb];
    [| split; [discriminate | intros (H & _); discriminate]].
  destruct (any_in NEGATIVE_KEYWORDS text); cbn [negb];
    [split; [discriminate | intros (_ & H & _); discriminate]|].
  destruct (any_in epidemic_terms text); cbn [negb].
  - destruct (any_in EPIDEMIC_CONTEXT text); cbn [negb].
    + now repeat split.
    + split; [discriminate | intros (_ & _ & H)]. now apply H.
  - repeat split; trivial. discriminate.
Qed.

(** C2.  [is_disaster_event] answers true exactly when the lower-cased
    text "title, space, summary" (an argument that is not a [str] counting
    as empty) contains a positive disaster keyword as a substring, contains
    no negative keyword, and, if it contains one of "wabah", "epidemi",
    "pandemi", also contains an epidemic-context term.  In particular a
    true answer implies a positive keyword in the text and no negative
    one. *)
Theorem is_disaster_event_iff (judul ringkasan : cell) :
  let text := text_of (str_or_empty judul) (str_or_empty ringkasan) in
  (is_disaster_event judul ringkasan = true
   <-> (exists kw, In kw DISASTER_KEYWORDS /\ Str.Substring kw text)
       /\ (forall neg, In neg NEGATIVE_KEYWORDS -> ~ Str.Substring neg text)
       /\ ((exists term, In term ["wabah"; "epidemi"; "pandemi"]
                         /\ Str.Substring term text)
           -> exists ctx, In ctx EPIDEMIC_CONTEXT /\ Str.Substring ctx text))
  /\ (is_disaster_event judul ringkasan = true ->
      (exists kw, In kw DISASTER_KEYWORDS /\ Str.Substring kw text)
      /\ forall neg, In neg NEGATIVE_KEYWORDS -> ~ Str.Substring neg text).
Proof.
  intros text.
  pose proof (is_disaster_event_tests judul ringkasan) as H.
  cbv zeta in H. fold text in H.
  rewrite any_in_spec, any_in_false, !any_in_spec in H.
  change epidemic_terms with ["wabah"; "epidemi"; "pandemi"] in H.
  split; [exact H|].
  intros Ht. apply H in Ht. destruct Ht as (Hp & Hn & _). now split.
Qed.

(** The scenarios of the specification. *)
Example is_disaster_event_scenarios :
  is_disaster_event (Some "Banjir bandang di Jakarta") (Some "") = true
  /\ is_disaster_event (Some "Wabah misterius di desa") (Some "") = false
  /\ is_disaster_event (Some "Banjir gol di Liga Inggris") None = false
  /\ is_disaster_event (Some "Epidemi DBD meluas") (Some "Pasien bertambah")
     = true.
Proof. repeat split. Qed.

(** No keyword of the entries of [table] occurs in [text]. *)
Definition no_hit (table : list (string * list string)) (text : string)
  : Prop :=
  forall category keywords kw,
    In (category, keywords) table -> In kw keywords -> ~ Str.Substring kw text.

Lemma first_category_spec (table : list (string * list string)) (text : string) :
  (exists before category keywords after,
      table = (before ++ (category, keywords) :: after)%list
      /\ no_hit before text
      /\ (exists kw, In kw keywords /\ Str.Substring kw text)
      /\ first_category table text = category)
  \/ (no_hit table text /\ first_category table text = "Lainnya").
Proof.
  induction table as [|[category keywords] rest IH]; simpl.
  - right. split; [intros ? ? ? [] | reflexivity].
  - destruct (any_in keywords text) eqn:E.
    + left. exists [], category, keywords, rest. simpl.
      repeat split; trivial.
      * intros ? ? ? [].
      * now apply any_in_spec.
    + assert (Hk : forall kw, In kw keywords -> ~ Str.Substring kw text)
        by now apply any_in_false.
      destruct IH as [(before & c & k & after & -> & Hb & Hhit & Hres)
                     | (Hnone & Hres)].
      * left. exists ((category, keywords) :: before), c, k, after.
        repeat split; trivial.
        intros c' k' kw [[= <- <-] | Hin] Hkw; [now apply Hk | eauto].
      * right. split; trivial.
        intros c' k' kw [[= <- <-] | Hin] Hkw; [now apply Hk | eauto].
Qed.

(** C6.  The category table is declared in the order Banjir, Gempa Bumi,
    Tsunami, Tanah Longsor, Kebakaran, Angin Kencang, Erupsi Gunung Api,
    Kekeringan, Epidemi, Kecelakaan, Konflik Sosial; [get_disaster_type]
    returns the first category of that order one of whose keywords is a
    substring of the lower-cased text (no earlier category has a keyword
    in the text), and "Lainnya" when no category has one. *)
Theorem get_disaster_type_first_match (judul ringkasan : string) :
  let text := text_of judul ringkasan in
  map fst disaster_categories
  = [ "Banjir"; "Gempa Bumi"; "Tsunami"; "Tanah Longsor"; "Kebakaran";
      "Angin Kencang"; "Erupsi Gunung Api"; "Kekeringan"; "Epidemi";
      "Kecelakaan"; "Konflik Sosial" ]
  /\ ((exists before category keywords after,
          disaster_categories = (before ++ (category, keywords) :: after)%list
          /\ no_hit before text
          /\ (exists kw, In kw keywords /\ Str.Substring kw text)
          /\ get_disaster_type judul ringkasan = category)
      \/ (no_hit disaster_categories text
          /\ get_disaster_type judul ringkasan = "Lainnya")).
Proof.
  intros text. split; [reflexivity|].
  apply first_category_spec.
Qed.

(** A text with keywords of two categories gets the earlier one. *)
Example get_disaster_type_tie :
  get_disaster_type "Gempa picu tsunami dan banjir" "" = "Banjir"
  /\ get_disaster_type "Tsunami usai gempa" "" = "Gempa Bumi"
  /\ get_disaster_type "Harga cabai naik" "" = "Lainnya".
Proof. repeat split; vm_compute; reflexivity. Qed.

End DisasterFilterFacts.

(* ------------------------------------------------------------------ *)
(** ** The regular-expression searches decide the matches they stand for *)

Module ReFacts.

Import Latin1 Str Re StrFacts.

Lemma search_from_spec here prev s :
  search_from here prev s = true
  <-> exists pre rest, s = pre ++ rest /\ here (last_or prev pre) rest = true.
Proof.
  revert prev; induction s as [|c s IH]; intros prev; cbn [search_from].
  - rewrite orb_false_r. split.
    + intros H. now exists "", "".
    + intros (pre & rest & E & H). destruct pre; [|discriminate].
      destruct rest; [|discriminate]. exact H.
  - rewrite orb_true_iff, IH. split.
    + intros [H | (pre & rest & -> & H)].
      * now exists "", (String c s).
      * now exists (String c pre), rest.
    + intros (pre & rest & E & H). destruct pre as [|c' pre].
      * left. simpl in E, H. now subst rest.
      * right. injection E as -> ->. now exists pre, rest.
Qed.

Lemma search_word_spec (lit text : string) :
  search_word lit text = true <-> WordMatch lit text.
Proof.
  unfold search_word, WordMatch. rewrite search_from_spec.
  split.
  - intros (pre & rest & -> & H). unfold match_word_here in H.
    apply andb_true_iff in H. destruct H as [Hb H].
    destruct (strip_prefix lit rest) as [post|] eqn:E; [|discriminate].
    apply strip_prefix_Some in E. subst rest.
    exists pre, post. repeat split; trivial.
  - intros (pre & post & -> & Hb & He).
    exists pre, (lit ++ post). split; trivial.
    unfold match_word_here. rewrite Hb, strip_prefix_append. exact He.
Qed.

Lemma ws_plus_spec (k : string -> bool) (s : string) :
  ws_plus k s = true
  <-> exists ws rest,
        s = ws ++ rest /\ ws <> "" /\ forallb_chars is_space ws = true
        /\ k rest = true.
Proof.
  induction s as [|c s IH]; cbn [ws_plus].
  - split; [discriminate|].
    intros (ws & rest & E & Hne & _). destruct ws; [now elim Hne | discriminate].
  - destruct (is_space c) eqn:Hc.
    + rewrite orb_true_iff, IH. split.
      * intros [(ws & rest & -> & Hne & Hws & Hk) | Hk].
        -- exists (String c ws), rest. repeat split; trivial; try discriminate.
           simpl. now rewrite Hc.
        -- exists (String c ""), s. repeat split; trivial; try discriminate.
           simpl. now rewrite Hc.
      * intros (ws & rest & E & Hne & Hws & Hk).
        destruct ws as [|c' ws]; [now elim Hne|].
        injection E as -> ->. simpl in Hws. apply andb_true_iff in Hws.
        destruct ws as [|c2 ws].
        -- now right.
        -- left. exists (String c2 ws), rest.
           repeat split; trivial; try discriminate. apply Hws.
    + split; [discriminate|].
      intros (ws & rest & E & Hne & Hws & _).
      destruct ws as [|c' ws]; [now elim Hne|].
      injection E as -> ->. simpl in Hws. rewrite Hc in Hws. discriminate.
Qed.

Lemma boundary_word_r (prev : option ascii) (c : ascii) (r : string) :
  is_word c = true ->
  boundary prev (head (String c r)) = true <-> word_at prev = false.
Proof.
  intros Hc. unfold boundary. simpl. rewrite Hc.
  destruct (word_at prev); simpl; split; congruence.
Qed.

Lemma boundary_word_l (c : ascii) (next : option ascii) :
  is_word c = true ->
  boundary (Some c) next = true <-> word_at next = false.
Proof.
  intros Hc. unfold boundary. simpl. rewrite Hc.
  destruct (word_at next); simpl; split; congruence.
Qed.

Lemma search_di_indonesia_spec (text : string) :
  search_di_indonesia text = true <-> DiIndonesiaMatch text.
Proof.
  unfold search_di_indonesia, DiIndonesiaMatch. rewrite search_from_spec.
  split.
  - intros (pre & rest & -> & H). unfold match_di_indonesia_here in H.
    apply andb_true_iff in H. destruct H as [Hb H].
    destruct (strip_prefix "di" rest) as [r1|] eqn:E1; [|discriminate].
    apply strip_prefix_Some in E1. subst rest.
    apply ws_plus_spec in H. destruct H as (ws & r2 & -> & Hne & Hws & H).
    destruct (strip_prefix "indonesia" r2) as [post|] eqn:E2; [|discriminate].
    apply strip_prefix_Some in E2. subst r2.
    exists pre, ws, post. repeat split; trivial.
    + now apply (boundary_word_r _ "d"%char (String "i" (ws ++ "indonesia" ++ post))).
    + now apply (boundary_word_l "a"%char).
  - intros (pre & ws & post & -> & Hne & Hws & Hpre & Hpost).
    exists pre, ("di" ++ ws ++ "indonesia" ++ post). split; trivial.
    unfold match_di_indonesia_here. apply andb_true_iff. split.
    + now apply (boundary_word_r _ "d"%char).
    + rewrite strip_prefix_append. apply ws_plus_spec.
      exists ws, ("indonesia" ++ post). repeat split; trivial.
      rewrite strip_prefix_append.
      now apply (boundary_word_l "a"%char).
Qed.

(** The phrase written with one space is an instance. *)
Lemma di_indonesia_single_space (pre post : string) :
  word_at (last_or None pre) = false ->
  word_at (head post) = false ->
  DiIndonesiaMatch (pre ++ "di indonesia" ++ post).
Proof.
  intros Hpre Hpost. exists pre, " ", post. repeat split; trivial.
  discriminate.
Qed.

End ReFacts.

(* ------------------------------------------------------------------ *)
(** ** [LocationFilter]: what is extracted, and when the filter passes *)

Module LocationFilterFacts.

Import Latin1 Str Re StrFacts ReFacts LocationFilter.

(** The text both methods look at. *)
Definition text_of (judul ringkasan : cell) : string :=
  Str.lower (str_or_empty judul ++ " " ++ str_or_empty ringkasan).

(** [a] is at least as long as [b]. *)
Definition len_ge (a b : string) : Prop := String.length b <= String.length a.

Lemma insert_by_len_perm x l : Permutation (x :: l) (insert_by_len x l).
Proof.
  induction l as [|y l IH]; simpl; [reflexivity|].
  destruct (Nat.ltb _ _); [|reflexivity].
  etransitivity; [apply perm_swap | now apply perm_skip].
Qed.

Lemma sorted_by_len_desc_perm l : Permutation l (sorted_by_len_desc l).
Proof.
  induction l as [|x l IH]; simpl; [reflexivity|].
  etransitivity; [apply perm_skip, IH | apply insert_by_len_perm].
Qed.

Lemma insert_by_len_sorted x l :
  StronglySorted len_ge l -> StronglySorted len_ge (insert_by_len x l).
Proof.
  induction 1 as [|y l Hs IH Hall]; simpl.
  - constructor; constructor.
  - destruct (Nat.ltb_spec (String.length x) (String.length y)) as [Hlt|Hge].
    + constructor; trivial.
      apply (Permutation_Forall (insert_by_len_perm x l)).
      constructor; trivial. unfold len_ge. lia.
    + constructor; [now constructor|].
      constructor; [exact Hge|].
      eapply Forall_impl; [|exact Hall]. unfold len_ge. intros; lia.
Qed.

Lemma sorted_by_len_desc_sorted l : StronglySorted len_ge (sorted_by_len_desc l).
Proof.
  induction l as [|x l IH]; simpl; [constructor | now apply insert_by_len_sorted].
Qed.

Lemma sorted_split_after (before after : list string) (e : string) :
  StronglySorted len_ge (before ++ e :: after)%list ->
  Forall (len_ge e) after.
Proof.
  induction before as [|b before IH]; simpl; intros H; inversion H; subst; auto.
Qed.

Lemma title_from_empty (b : bool) (s : string) :
  title_from b s = "" <-> s = "".
Proof.
  destruct s as [|c r]; simpl; [tauto|].
  split; [|discriminate].
  destruct b; [discriminate|].
  unfold title_char.
  destruct (_ || _)%bool; [discriminate|].
  destruct (N.eqb _ _); discriminate.
Qed.

Lemma title_empty (s : string) : title s = "" <-> s = "".
Proof. apply title_from_empty. Qed.

(** [e] is passed over by the loop: it is the entry "indonesia", or it
    does not match the text as a whole word. *)
Definition passed_over (text e : string) : Prop :=
  e = "indonesia" \/ ~ WordMatch e text.

Lemma scan_locations_spec (locations : list string) (text : string) :
  (exists before e after,
      locations = (before ++ e :: after)%list
      /\ e <> "indonesia" /\ WordMatch e text
      /\ Forall (passed_over text) before
      /\ scan_locations locations text = title e)
  \/ (Forall (passed_over text) locations
      /\ scan_locations locations text = "").
Proof.
  induction locations as [|x l IH]; simpl.
  - right. split; [constructor | reflexivity].
  - assert (Hskip : passed_over text x ->
              (exists before e after,
                  x :: l = (before ++ e :: after)%list
                  /\ e <> "indonesia" /\ WordMatch e text
                  /\ Forall (passed_over text) before
                  /\ scan_locations l text = title e)
              \/ (Forall (passed_over text) (x :: l)
                  /\ scan_locations l text = "")).
    { intros Hx.
      destruct IH as [(before & e & after & -> & Hne & Hm & Hb & Hres)
                     | (Hall & Hres)].
      - left. exists (x :: before), e, after. repeat split; trivial.
        now constructor.
      - right. split; trivial. now constructor. }
    destruct (String.eqb_spec x "indonesia") as [->|Hx].
    + apply Hskip. now left.
    + destruct (search_word x text) eqn:Hm.
      * left. exists [], x, l. repeat split; trivial.
        now apply search_word_spec.
      * apply Hskip. right. intros HW. apply search_word_spec in HW.
        congruence.
Qed.

Section WithGazetteer.

Variable lokasi_keywords : list string.

Lemma extract_location_unfold (judul ringkasan : cell) :
  extract_location lokasi_keywords judul ringkasan
  = if search_di_indonesia (text_of judul ringkasan) then "Indonesia"
    else scan_locations (sorted_by_len_desc lokasi_keywords)
                        (text_of judul ringkasan).
Proof. reflexivity. Qed.

(** The scan over the gazetteer sorted longest first: the entry it stops
    at is as long as any matching entry other than "indonesia". *)
Lemma scan_sorted_cases (text : string) :
  let sorted_locations := sorted_by_len_desc lokasi_keywords in
  (exists before e after,
      sorted_locations = (before ++ e :: after)%list
      /\ e <> "indonesia" /\ WordMatch e text
      /\ Forall (passed_over text) before
      /\ (forall e', In e' lokasi_keywords -> e' <> "indonesia" ->
                     WordMatch e' text ->
                     String.length e' <= String.length e)
      /\ scan_locations sorted_locations text = title e)
  \/ (Forall (passed_over text) lokasi_keywords
      /\ scan_locations sorted_locations text = "").
Proof.
  intros sorted_locations.
  assert (Hperm := sorted_by_len_desc_perm lokasi_keywords).
  assert (Hsort := sorted_by_len_desc_sorted lokasi_keywords).
  fold sorted_locations in Hperm, Hsort.
  destruct (scan_locations_spec sorted_locations text)
    as [(before & e & after & E & Hne & Hm & Hb & Hres) | (Hall & Hres)].
  - left. exists before, e, after. repeat split; trivial.
    intros e' Hin Hne' Hm'.
    apply (Permutation_in _ Hperm) in Hin. rewrite E in Hin, Hsort.
    apply in_app_or in Hin. destruct Hin as [Hin | [<- | Hin]].
    + rewrite Forall_forall in Hb. destruct (Hb e' Hin); tauto.
    + lia.
    + apply sorted_split_after in Hsort. rewrite Forall_forall in Hsort.
      apply (Hsort e' Hin).
  - right. split; trivial.
    apply (Permutation_Forall (Permutation_sym Hperm)). exact Hall.
Qed.

(** C4, as amended.  When the lower-cased text matches "di", white space,
    "indonesia" as whole words, [extract_location] returns "Indonesia".
    Otherwise it scans the gazetteer longest first (a stable sort by
    length, descending), passes over the entry "indonesia" and every entry
    that does not match as a whole word, and returns the title-cased form
    of the first entry left; no matching entry other than "indonesia" is
    longer than the one returned.  When every entry is passed over it
    returns the empty string. *)
Theorem extract_location_longest_first (judul ringkasan : cell) :
  let text := text_of judul ringkasan in
  let sorted_locations := sorted_by_len_desc lokasi_keywords in
  Permutation lokasi_keywords sorted_locations
  /\ StronglySorted len_ge sorted_locations
  /\ (DiIndonesiaMatch text ->
      extract_location lokasi_keywords judul ringkasan = "Indonesia")
  /\ (~ DiIndonesiaMatch text ->
      (exists before e after,
          sorted_locations = (before ++ e :: after)%list
          /\ e <> "indonesia" /\ WordMatch e text
          /\ Forall (passed_over text) before
          /\ (forall e', In e' lokasi_keywords -> e' <> "indonesia" ->
                         WordMatch e' text ->
                         String.length e' <= String.length e)
          /\ extract_location lokasi_keywords judul ringkasan = title e)
      \/ (Forall (passed_over text) lokasi_keywords
          /\ extract_location lokasi_keywords judul ringkasan = "")).
Proof.
  intros text sorted_locations.
  split; [apply sorted_by_len_desc_perm|].
  split; [apply sorted_by_len_desc_sorted|].
  rewrite extract_location_unfold. fold text. fold sorted_locations.
  rewrite <- search_di_indonesia_spec.
  destruct (search_di_indonesia text).
  - split; [reflexivity | intros H; now elim H].
  - split; [discriminate | intros _].
    exact (scan_sorted_cases text).
Qed.

(** C3, as amended.  [is_in_indonesia] answers true exactly when the
    lower-cased text matches "di", white space, "indonesia" as whole
    words, or some non-empty gazetteer entry other than "indonesia"
    matches it as a whole word. *)
Theorem is_in_indonesia_iff (judul ringkasan : cell) :
  let text := text_of judul ringkasan in
  is_in_indonesia lokasi_keywords judul ringkasan = true
  <-> DiIndonesiaMatch text
      \/ exists e, In e lokasi_keywords /\ e <> "indonesia" /\ e <> ""
                   /\ WordMatch e text.
Proof.
  intros text. unfold is_in_indonesia.
  rewrite negb_true_iff, String.eqb_neq, extract_location_unfold. fold text.
  rewrite <- search_di_indonesia_spec.
  destruct (search_di_indonesia text).
  { split; [now left | discriminate]. }
  assert (Hperm := sorted_by_len_desc_perm lokasi_keywords).
  destruct (scan_sorted_cases text)
    as [(before & e0 & after & E & Hne0 & Hm0 & _ & Hlong & Hr) | (Hall & Hr)];
    rewrite Hr.
  - rewrite title_empty. split.
    + intros Hnonempty. right. exists e0. repeat split; trivial.
      apply (Permutation_in _ (Permutation_sym Hperm)). rewrite E.
      apply in_or_app. right. now left.
    + intros [Hd | (e & Hin & Hne & Hnonempty & Hm)]; [discriminate|].
      intros ->. specialize (Hlong e Hin Hne Hm).
      destruct e; [now elim Hnonempty | simpl in Hlong; lia].
  - split; [intros H; now elim H|].
    intros [Hd | (e & Hin & Hne & _ & Hm)]; [discriminate|].
    rewrite Forall_forall in Hall. destruct (Hall e Hin); tauto.
Qed.

(** C10.  [is_in_indonesia] answers true exactly when [extract_location]
    returns a non-empty string on the same arguments; so a title and
    summary that pass the location filter have a non-empty extracted
    location. *)
Theorem is_in_indonesia_iff_location (judul ringkasan : cell) :
  (is_in_indonesia lokasi_keywords judul ringkasan = true
   <-> extract_location lokasi_keywords judul ringkasan <> "")
  /\ (is_in_indonesia lokasi_keywords judul ringkasan = false
      <-> extract_location lokasi_keywords judul ringkasan = "").
Proof.
  unfold is_in_indonesia.
  rewrite negb_true_iff, negb_false_iff, String.eqb_neq, String.eqb_eq.
  tauto.
Qed.

End WithGazetteer.

(** The reading of [extract_location] that scans every gazetteer entry,
    the entry "indonesia" included: the first whole-word match in
    longest-first order, title-cased.  It follows the description, not the
    source, and is compared with the source below. *)
Definition extract_location_scanning_all (lokasi_keywords : list string)
  (judul ringkasan : cell) : string :=
  let text := text_of judul ringkasan in
  if search_di_indonesia text then "Indonesia"
  else match find (fun e => search_word e text)
                  (sorted_by_len_desc lokasi_keywords) with
       | Some e => title e
       | None => ""
       end.

(** C4, the statement as written fails: with the built-in gazetteer and
    the title "Gempa Indonesia Jawa" the first whole-word match in
    longest-first order is "indonesia", but the loop passes over that
    entry and the answer is "Jawa". *)
Lemma extract_location_skips_indonesia :
  extract_location fallback_lokasi_keywords (Some "Gempa Indonesia Jawa") None
  = "Jawa"
  /\ extract_location_scanning_all fallback_lokasi_keywords
       (Some "Gempa Indonesia Jawa") None = "Indonesia"
  /\ extract_location fallback_lokasi_keywords (Some "Gempa Indonesia Jawa") None
     <> extract_location_scanning_all fallback_lokasi_keywords
          (Some "Gempa Indonesia Jawa") None.
Proof.
  split; [|split]; vm_compute; [reflexivity | reflexivity | discriminate].
Qed.

(** C3, the statement as written fails: "Gempa Indonesia" contains the
    gazetteer entry "indonesia" as a whole word, and the filter answers
    false.  An empty gazetteer entry matches every text that has a word
    in it, and yields the empty location, so the filter answers false
    there too. *)
Lemma is_in_indonesia_bare_indonesia :
  ~ (is_in_indonesia fallback_lokasi_keywords (Some "Gempa Indonesia") None
     = true
     <-> DiIndonesiaMatch (text_of (Some "Gempa Indonesia") None)
         \/ exists e, In e fallback_lokasi_keywords
                      /\ WordMatch e (text_of (Some "Gempa Indonesia") None))
  /\ ~ (is_in_indonesia [""] (Some "Gempa") None = true
        <-> DiIndonesiaMatch (text_of (Some "Gempa") None)
            \/ exists e, In e [""]
                         /\ WordMatch e (text_of (Some "Gempa") None)).
Proof.
  split.
  - intros [_ H].
    assert (Hf : is_in_indonesia fallback_lokasi_keywords
                   (Some "Gempa Indonesia") None = false)
      by (vm_compute; reflexivity).
    rewrite H in Hf; [discriminate|].
    right. exists "indonesia". split; [simpl; tauto|].
    apply search_word_spec. vm_compute. reflexivity.
  - intros [_ H].
    assert (Hf : is_in_indonesia [""] (Some "Gempa") None = false)
      by (vm_compute; reflexivity).
    rewrite H in Hf; [discriminate|].
    right. exists "". split; [simpl; tauto|].
    apply search_word_spec. vm_compute. reflexivity.
Qed.

(** The scenario of the specification: "banjir bandang di Jakarta". *)
Example extract_location_jakarta :
  extract_location fallback_lokasi_keywords
    (Some "Banjir bandang di Jakarta") (Some "Ratusan rumah terendam")
  = "Jakarta"
  /\ is_in_indonesia fallback_lokasi_keywords
       (Some "Banjir bandang di Jakarta") (Some "Ratusan rumah terendam")
     = true.
Proof. split; vm_compute; reflexivity. Qed.

End LocationFilterFacts.

(* ------------------------------------------------------------------ *)
(** ** [TextNormalizer.clean_domain] *)

Module CleanDomainFacts.

Import Latin1 Str StrFacts TextNormalizer.

Lemma starts_with_no_occurrence (old c : ascii) (old' s : string) :
  ~ Substring (String old old') (String c s) ->
  starts_with (String old old') (String c s) = false
  /\ ~ Substring (String old old') s.
Proof.
  intros H. split.
  - destruct (starts_with _ _) eqn:E; [|reflexivity].
    apply starts_with_spec in E. destruct E as [r Hr].
    elim H. exists "", r. exact Hr.
  - intros (pre & post & ->). elim H. now exists (String c pre), post.
Qed.

(** Where [old] does not occur, [replace] changes nothing. *)
Lemma replace_no_occurrence (old new s : string) :
  old <> "" -> ~ Substring old s -> replace old new s = s.
Proof.
  intros Hold. destruct old as [|a old]; [now elim Hold|].
  unfold replace. induction s as [|c s IH]; intros H; [reflexivity|].
  apply starts_with_no_occurrence in H. destruct H as [Hs Hrest].
  cbn [replace_from]. rewrite Hs. now rewrite IH.
Qed.

Lemma replace_www_here (r : string) :
  replace "www." "" ("www." ++ r) = replace "www." "" r.
Proof. reflexivity. Qed.

Lemma replace_www_next (c : ascii) (r : string) :
  starts_with "www." (String c r) = false ->
  replace "www." "" (String c r) = String c (replace "www." "" r).
Proof. intros H. unfold replace. cbn [replace_from]. now rewrite H. Qed.

(** The reading of [clean_domain] that strips one leading "www.", in any
    letter case.  It follows the description, not the source, and is
    compared with the source below. *)
Definition clean_domain_leading_only (domain : cell) : string :=
  match domain with
  | None => "unknown"
  | Some EmptyString => "unknown"
  | Some domain =>
      let domain := lower domain in
      match strip_prefix "www." domain with
      | Some rest => rest
      | None => domain
      end
  end.

(** C5, the statement as written fails: an occurrence of "www." that is not
    leading is removed too, and an upper-case "WWW." is not stripped (the
    replacement runs before the lower-casing). *)
Lemma clean_domain_not_leading_only :
  clean_domain (Some "berita.www.contoh.com") = "berita.contoh.com"
  /\ clean_domain_leading_only (Some "berita.www.contoh.com")
     = "berita.www.contoh.com"
  /\ clean_domain (Some "WWW.Contoh.com") = "www.contoh.com"
  /\ clean_domain_leading_only (Some "WWW.Contoh.com") = "contoh.com".
Proof. split; [|split; [|split]]; vm_compute; reflexivity. Qed.

(** C5, as amended.  [clean_domain] returns "unknown" for an absent or
    empty input.  For a non-empty input it removes every occurrence of the
    exact text "www." (found left to right, occurrences not overlapping)
    and lower-cases what is left.  So an input without "www." comes back
    lower-cased, and an input "www." + r, with no "www." in r, comes back
    as r lower-cased. *)
Theorem clean_domain_spec :
  clean_domain None = "unknown"
  /\ clean_domain (Some "") = "unknown"
  /\ (forall d, d <> "" ->
        clean_domain (Some d) = lower (replace "www." "" d))
  /\ replace "www." "" "" = ""
  /\ (forall r, replace "www." "" ("www." ++ r) = replace "www." "" r)
  /\ (forall c r, starts_with "www." (String c r) = false ->
        replace "www." "" (String c r) = String c (replace "www." "" r))
  /\ (forall d, d <> "" -> ~ Substring "www." d ->
        clean_domain (Some d) = lower d)
  /\ (forall r, ~ Substring "www." r ->
        clean_domain (Some ("www." ++ r)) = lower r).
Proof.
  assert (Hne : "www." <> "") by discriminate.
  split; [reflexivity|]. split; [reflexivity|].
  split; [intros [|c d] Hd; [now elim Hd | reflexivity]|].
  split; [reflexivity|].
  split; [exact replace_www_here|].
  split; [exact replace_www_next|].
  split.
  - intros [|c d] Hd Hno; [now elim Hd|].
    unfold clean_domain. now rewrite (replace_no_occurrence _ _ _ Hne Hno).
  - intros r Hno.
    change (clean_domain (Some ("www." ++ r)))
      with (lower (replace "www." "" ("www." ++ r))).
    now rewrite replace_www_here, (replace_no_occurrence _ _ _ Hne Hno).
Qed.

Example clean_domain_detik :
  clean_domain (Some "www.detik.com") = "detik.com"
  /\ clean_domain (Some "News.Detik.com") = "news.detik.com".
Proof. split; vm_compute; reflexivity. Qed.

End CleanDomainFacts.

(* ------------------------------------------------------------------ *)
(** ** [TextNormalizer.normalize_title] *)

Module NormalizeTitleFacts.

Import Latin1 Str StrFacts TextNormalizer.

(** U+00D7, the multiplication sign, and U+00F7, the division sign. *)
Definition times_sign : ascii := ascii_of_N 215.
Definition division_sign : ascii := ascii_of_N 247.

(** The characters a normalized title is made of: digits, a-z, the space,
    and the code points U+00D7 and U+00DF..U+00FF. *)
Definition result_char (c : ascii) : bool :=
  let n := cp c in
  (is_ascii_digit c || between 97 122 n || between 223 255 n
   || N.eqb n 215 || Ascii.eqb c " ")%bool.

(** No space directly after a space; [prev_space] tells that the character
    before [s] is a space. *)
Fixpoint spaced_singly (prev_space : bool) (s : string) : bool :=
  match s with
  | EmptyString => true
  | String c r =>
      if Ascii.eqb c " " then (negb prev_space && spaced_singly true r)%bool
      else spaced_singly false r
  end.

(** The 256 code points, one by one. *)
Ltac by_cases_on_ascii c :=
  destruct c as [[] [] [] [] [] [] [] []]; vm_compute;
  solve [ reflexivity | discriminate | intros; discriminate
        | intros; split; reflexivity ].

Lemma blank_lower_char (c : ascii) :
  let c' := lower_char c in
  let d := if kept_char c' then c' else " "%char in
  (result_char d || is_space d)%bool = true.
Proof. by_cases_on_ascii c. Qed.

Lemma space_is_space (c : ascii) : Ascii.eqb c " " = true -> is_space c = true.
Proof. intros H. apply Ascii.eqb_eq in H. now subst. Qed.

Lemma result_char_lower (c : ascii) : result_char c = true -> lower_char c = c.
Proof. by_cases_on_ascii c. Qed.

Lemma result_char_classes (c : ascii) :
  result_char c = true ->
  (is_letter c || is_ascii_digit c || Ascii.eqb c " "
   || Ascii.eqb c times_sign || Ascii.eqb c division_sign)%bool = true.
Proof. by_cases_on_ascii c. Qed.

Lemma blank_lower_chars (t : string) :
  forallb_chars (fun c => (result_char c || is_space c)%bool)
    (blank_special (lower t)) = true.
Proof.
  induction t as [|c t IH]; [reflexivity|].
  unfold blank_special, lower in *. cbn [map_chars forallb_chars].
  rewrite IH, andb_true_r. apply blank_lower_char.
Qed.

Lemma collapse_from_chars (b : bool) (s : string) :
  forallb_chars (fun c => (result_char c || is_space c)%bool) s = true ->
  forallb_chars result_char (collapse_from b s) = true
  /\ spaced_singly b (collapse_from b s) = true.
Proof.
  revert b; induction s as [|c s IH]; intros b H; [now split|].
  cbn [forallb_chars] in H. apply andb_true_iff in H. destruct H as [Hc Hs].
  cbn [collapse_from]. destruct (is_space c) eqn:Esp.
  - destruct b; [now apply IH|].
    destruct (IH true Hs) as [H1 H2]. cbn. now rewrite H1, H2.
  - rewrite orb_false_r in Hc.
    assert (Hn : Ascii.eqb c " " = false).
    { destruct (Ascii.eqb c " ") eqn:E; [|reflexivity].
      apply space_is_space in E. congruence. }
    destruct (IH false Hs) as [H1 H2]. cbn. now rewrite Hc, Hn, H1, H2.
Qed.

Lemma spaced_singly_weaken (b : bool) (s : string) :
  spaced_singly b s = true -> spaced_singly false s = true.
Proof.
  destruct s as [|c s]; [reflexivity|]. cbn.
  destruct (Ascii.eqb c " "); [|tauto].
  rewrite !andb_true_iff. tauto.
Qed.

Lemma lstrip_keeps (p : ascii -> bool) (s : string) :
  forallb_chars p s = true -> spaced_singly false s = true ->
  forallb_chars p (lstrip s) = true
  /\ spaced_singly false (lstrip s) = true
  /\ match head (lstrip s) with Some c => is_space c = false | None => True end.
Proof.
  induction s as [|c s IH]; intros Hp Hs; [now repeat split|].
  cbn [lstrip]. destruct (is_space c) eqn:Esp.
  - cbn in Hp, Hs. apply andb_true_iff in Hp.
    apply IH; [tauto|].
    destruct (Ascii.eqb c " "); [eapply spaced_singly_weaken|]; exact Hs.
  - now repeat split.
Qed.

Lemma spaced_singly_cons (b : bool) (c : ascii) (s : string) :
  spaced_singly b (String c s) = true
  <-> (Ascii.eqb c " " = true -> b = false)
      /\ spaced_singly (Ascii.eqb c " ") s = true.
Proof.
  cbn [spaced_singly]. destruct (Ascii.eqb c " ").
  - rewrite andb_true_iff, negb_true_iff. tauto.
  - split; [intros H; split; [discriminate | exact H] | tauto].
Qed.

Lemma rstrip_keeps (p : ascii -> bool) (b : bool) (s : string) :
  forallb_chars p s = true -> spaced_singly b s = true ->
  forallb_chars p (rstrip s) = true
  /\ spaced_singly b (rstrip s) = true
  /\ match last_or None (rstrip s) with
     | Some c => is_space c = false
     | None => rstrip s = ""
     end
  /\ (match head s with Some c => is_space c = false | None => True end ->
      head (rstrip s) = head s).
Proof.
  revert b; induction s as [|c s IH]; intros b Hp Hs; [now repeat split|].
  cbn [forallb_chars] in Hp. apply andb_true_iff in Hp. destruct Hp as [Hc Hp].
  apply spaced_singly_cons in Hs. destruct Hs as [Hb Hs].
  destruct (IH _ Hp Hs) as (H1 & H2 & H3 & _).
  cbn [rstrip]. destruct (rstrip s) as [|c' r'] eqn:Er.
  - destruct (is_space c) eqn:Esp.
    + repeat split; trivial. cbn. intros; congruence.
    + split; [cbn; now rewrite Hc|].
      split; [apply spaced_singly_cons; now split|].
      split; [exact Esp | reflexivity].
  - split; [cbn [forallb_chars] in H1 |- *; now rewrite Hc, H1|].
    split; [apply spaced_singly_cons; now split|].
    split; [|reflexivity].
    cbn [last_or] in H3 |- *.
    destruct (last_or (Some c') r') eqn:El; [exact H3 | discriminate].
Qed.

Lemma spaced_singly_no_double (b : bool) (s : string) :
  spaced_singly b s = true -> ~ Substring "  " s.
Proof.
  intros H (pre & post & ->). revert b H.
  induction pre as [|c pre IH]; intros b H.
  - cbn in H. rewrite andb_false_r in H. discriminate.
  - cbn in H. destruct (Ascii.eqb c " ").
    + apply andb_true_iff in H. now apply (IH true).
    + now apply (IH false).
Qed.

Lemma forallb_chars_lower (s : string) :
  forallb_chars result_char s = true -> lower s = s.
Proof.
  induction s as [|c s IH]; [reflexivity|]. cbn. intros H.
  apply andb_true_iff in H. destruct H as [Hc Hs].
  unfold lower in *. cbn. now rewrite (result_char_lower c Hc), IH.
Qed.

(** X1.  What does hold of every normalized title: it is made of digits, a-z,
    the space and the code points U+00D7, U+00DF..U+00FF, all of them
    letters except the multiplication and division signs; it is in lower
    case; no space follows a space; it neither starts nor ends with white
    space. *)
Lemma normalize_title_shape (title : string) :
  let t := normalize_title (Some title) in
  forallb_chars result_char t = true
  /\ forallb_chars
       (fun c => (is_letter c || is_ascii_digit c || Ascii.eqb c " "
                  || Ascii.eqb c times_sign || Ascii.eqb c division_sign)%bool)
       t = true
  /\ lower t = t
  /\ ~ Substring "  " t
  /\ match head t with Some c => is_space c = false | None => True end
  /\ match last_or None t with Some c => is_space c = false | None => t = "" end.
Proof.
  intros t. unfold normalize_title in t.
  destruct (collapse_from_chars false _ (blank_lower_chars title)) as [Hc Hs].
  fold (collapse_spaces (blank_special (lower title))) in Hc, Hs.
  destruct (lstrip_keeps _ _ Hc Hs) as (Hc1 & Hs1 & Hh1).
  destruct (rstrip_keeps _ _ _ Hc1 Hs1) as (Hc2 & Hs2 & Hl2 & Hh2).
  fold (strip (collapse_spaces (blank_special (lower title)))) in Hc2, Hs2, Hl2, Hh2.
  fold t in Hc2, Hs2, Hl2, Hh2.
  assert (Hall : forall s, forallb_chars result_char s = true ->
            forallb_chars
              (fun c => (is_letter c || is_ascii_digit c || Ascii.eqb c " "
                  || Ascii.eqb c times_sign || Ascii.eqb c division_sign)%bool)
              s = true).
  { induction s as [|c s IH]; [reflexivity|]. cbn [forallb_chars].
    intros H. apply andb_true_iff in H. destruct H as [H1 H2].
    now rewrite (result_char_classes c H1), IH. }
  split; [exact Hc2|]. split; [now apply Hall|].
  split; [now apply forallb_chars_lower|].
  split; [now apply (spaced_singly_no_double false)|].
  split; [|exact Hl2].
  rewrite (Hh2 Hh1). exact Hh1.
Qed.

(** C7, at the input where the code departs from it: the multiplication
    sign U+00D7 lies inside the range U+00C0..U+024F of the
    character class, so it is kept, and it is neither a letter nor a digit nor the
    space.  The other parts of the statement hold here: the answer for a
    non-string and for the empty string is the empty string. *)
Theorem normalize_title_keeps_times_sign :
  normalize_title (Some (String "3" (String times_sign "4")))
  = String "3" (String times_sign "4")
  /\ is_letter times_sign = false
  /\ is_ascii_digit times_sign = false
  /\ is_space times_sign = false
  /\ normalize_title None = ""
  /\ normalize_title (Some "") = "".
Proof. repeat split. Qed.

Example normalize_title_banjir :
  normalize_title (Some "Banjir Jakarta!!") = "banjir jakarta"
  /\ normalize_title (Some "banjir jakarta") = "banjir jakarta"
  /\ normalize_title (Some "  Gempa   M5,6 --  Guncang Bali ") = "gempa m5 6 guncang bali".
Proof. repeat split. Qed.

End NormalizeTitleFacts.

(* ------------------------------------------------------------------ *)
(** ** Duplicates and order *)

Module FrameFacts.

Import Scraper.

Lemma cell_eqb_eq (a b : cell) : cell_eqb a b = true <-> a = b.
Proof.
  destruct a as [x|], b as [y|]; simpl; try (split; congruence).
  rewrite String.eqb_eq. split; congruence.
Qed.

Lemma key_eqb_eq (a b : cell * cell) : key_eqb a b = true <-> a = b.
Proof.
  destruct a as [a1 a2], b as [b1 b2]. unfold key_eqb. simpl.
  rewrite andb_true_iff, !cell_eqb_eq. split; [intros [-> ->] | intros [= -> ->]]; auto.
Qed.

Lemma key_in_In (k : cell * cell) (seen : list (cell * cell)) :
  key_in k seen = true <-> In k seen.
Proof.
  unfold key_in. rewrite existsb_exists. split.
  - intros (k' & Hin & E). apply key_eqb_eq in E. now subst.
  - intros Hin. exists k. split; trivial. now apply key_eqb_eq.
Qed.

Lemma key_in_not_In (k : cell * cell) (seen : list (cell * cell)) :
  key_in k seen = false <-> ~ In k seen.
Proof.
  rewrite <- key_in_In. destruct (key_in k seen); split; congruence.
Qed.

(** [r] is the first row of [df] with its key. *)
Definition first_with_key (r : Row) (df : list Row) : Prop :=
  exists before after,
    df = (before ++ r :: after)%list
    /\ forall r', In r' before -> dedup_key r' <> dedup_key r.

Lemma drop_duplicates_from_In (seen : list (cell * cell)) (df : list Row)
  (r : Row) :
  In r (drop_duplicates_from seen df)
  <-> ~ In (dedup_key r) seen /\ first_with_key r df.
Proof.
  revert seen; induction df as [|r0 df IH]; intros seen; simpl.
  - split; [tauto|]. intros (_ & before & after & E & _).
    now destruct before.
  - destruct (key_in (dedup_key r0) seen) eqn:E0.
    + apply key_in_In in E0. rewrite IH. split.
      * intros (Hns & before & after & -> & Hb). split; trivial.
        exists (r0 :: before), after. split; trivial.
        intros r' [<- | Hin]; [congruence | auto].
      * intros (Hns & before & after & E & Hb). split; trivial.
        destruct before as [|r1 before]; injection E as <- ->.
        -- contradiction.
        -- exists before, after. split; trivial. intros; apply Hb; now right.
    + apply key_in_not_In in E0. simpl. rewrite IH. split.
      * intros [<- | (Hns & before & after & -> & Hb)].
        -- split; trivial. exists [], df. split; trivial. intros ? [].
        -- simpl in Hns. split; [tauto|].
           exists (r0 :: before), after. split; trivial.
           intros r' [<- | Hin]; [intros E; apply Hns; now left | auto].
      * intros (Hns & before & after & E & Hb).
        destruct before as [|r1 before]; injection E as <- ->.
        -- now left.
        -- right. split.
           ++ simpl. intros [E | Hin]; [|contradiction].
              apply (Hb r0); [now left | exact E].
           ++ exists before, after. split; trivial.
              intros; apply Hb; now right.
Qed.

Lemma drop_duplicates_from_NoDup (seen : list (cell * cell)) (df : list Row) :
  NoDup (map dedup_key (drop_duplicates_from seen df)).
Proof.
  revert seen; induction df as [|r0 df IH]; intros seen; simpl.
  - constructor.
  - destruct (key_in (dedup_key r0) seen); [apply IH|].
    simpl. constructor; [|apply IH].
    rewrite in_map_iff. intros (r & E & Hin).
    apply drop_duplicates_from_In in Hin. destruct Hin as [Hns _].
    apply Hns. left. now rewrite E.
Qed.

(** A frame without duplicate keys, none of them seen before, is left as
    it is. *)
Lemma drop_duplicates_from_fixed (seen : list (cell * cell)) (df : list Row) :
  NoDup (map dedup_key df) ->
  (forall r, In r df -> ~ In (dedup_key r) seen) ->
  drop_duplicates_from seen df = df.
Proof.
  revert seen; induction df as [|r0 df IH]; intros seen Hnd Hns; [reflexivity|].
  simpl in Hnd |- *. inversion Hnd as [|k ks Hk Hnd']; subst.
  assert (E0 : key_in (dedup_key r0) seen = false)
    by (apply key_in_not_In, Hns; now left).
  rewrite E0. f_equal. apply IH; trivial.
  intros r Hin [E | Hs].
  - apply Hk. rewrite E. now apply in_map.
  - apply (Hns r); [now right | exact Hs].
Qed.

Lemma drop_duplicates_from_idempotent (seen : list (cell * cell))
  (df : list Row) :
  drop_duplicates_from seen (drop_duplicates_from seen df)
  = drop_duplicates_from seen df.
Proof.
  apply drop_duplicates_from_fixed.
  - apply drop_duplicates_from_NoDup.
  - intros r Hin. now apply drop_duplicates_from_In in Hin.
Qed.

Lemma drop_duplicates_keys (df : list Row) (k : cell * cell) :
  In k (map dedup_key (drop_duplicates df)) <-> In k (map dedup_key df).
Proof.
  unfold drop_duplicates.
  enough (H : forall seen,
             In k (map dedup_key (drop_duplicates_from seen df))
             <-> In k (map dedup_key df) /\ ~ In k seen).
  { rewrite H. simpl. tauto. }
  induction df as [|r0 df IH]; intros seen; simpl; [tauto|].
  destruct (key_in (dedup_key r0) seen) eqn:E0.
  - apply key_in_In in E0. rewrite IH. split; [tauto|].
    intros [[<- | H] Hns]; tauto.
  - apply key_in_not_In in E0. simpl. rewrite IH. simpl.
    destruct (key_eqb (dedup_key r0) k) eqn:Ek.
    + apply key_eqb_eq in Ek. subst k. tauto.
    + assert (dedup_key r0 <> k)
        by (intros E; apply key_eqb_eq in E; congruence).
      tauto.
Qed.

(** [a] comes no earlier than [b]: the order of the sorted frame. *)
Definition not_earlier (a b : Row) : Prop :=
  later_or_same (datetime_wib a) (datetime_wib b) = true.

Lemma later_or_same_total (a b : option Z) :
  later_or_same a b = false -> later_or_same b a = true.
Proof.
  destruct a, b; simpl; try congruence.
  rewrite Z.leb_gt, Z.leb_le. lia.
Qed.

Lemma later_or_same_trans (a b c : option Z) :
  later_or_same a b = true -> later_or_same b c = true ->
  later_or_same a c = true.
Proof.
  destruct a, b, c; simpl; try congruence.
  rewrite !Z.leb_le. lia.
Qed.

Lemma insert_by_time_perm (r : Row) (df : list Row) :
  Permutation (r :: df) (insert_by_time r df).
Proof.
  induction df as [|r' df IH]; simpl; [reflexivity|].
  destruct (later_or_same _ _); [reflexivity|].
  etransitivity; [apply perm_swap | now apply perm_skip].
Qed.

Lemma sort_values_desc_perm (df : list Row) :
  Permutation df (sort_values_desc df).
Proof.
  induction df as [|r df IH]; simpl; [reflexivity|].
  etransitivity; [apply perm_skip, IH | apply insert_by_time_perm].
Qed.

Lemma insert_by_time_sorted (r : Row) (df : list Row) :
  StronglySorted not_earlier df ->
  StronglySorted not_earlier (insert_by_time r df).
Proof.
  induction 1 as [|r' df Hs IH Hall]; simpl.
  - constructor; constructor.
  - destruct (later_or_same (datetime_wib r) (datetime_wib r')) eqn:E.
    + constructor; [now constructor|].
      constructor; [exact E|].
      eapply Forall_impl; [|exact Hall].
      intros x Hx. eapply later_or_same_trans; [exact E | exact Hx].
    + constructor; trivial.
      apply (Permutation_Forall (insert_by_time_perm r df)).
      constructor; trivial. now apply later_or_same_total.
Qed.

Lemma sort_values_desc_sorted (df : list Row) :
  StronglySorted not_earlier (sort_values_desc df).
Proof.
  induction df as [|r df IH]; simpl;
    [constructor | now apply insert_by_time_sorted].
Qed.

End FrameFacts.

(* ------------------------------------------------------------------ *)
(** ** Timestamp validation, deduplication and the merge *)

Module ScraperFacts.

Import Scraper FrameFacts.

(** A row whose timestamp parsed to [t], as [process_datetime] returns
    it, and a row whose timestamp did not parse, as it is logged. *)
Definition stamped (r : Row) (t : Z) : Row :=
  set_datetime_wib (Some t) (set_datetime_utc (Some t) r).

Definition rejected (r : Row) : Row := set_datetime_utc None r.

Section WithParser.

Variable to_datetime : cell -> option Z.

Definition fails_to_parse (r : Row) : bool :=
  isna (to_datetime (tanggal_publikasi r)).

(** The rows that go on: those whose timestamp parses, stamped, in their
    order. *)
Definition valid_rows (df : list Row) : list Row :=
  flat_map (fun r => match to_datetime (tanggal_publikasi r) with
                     | Some t => [stamped r t]
                     | None => []
                     end) df.

(** The lines that go to the invalid-dates log at time [now]. *)
Definition invalid_lines (now : string) (df : list Row) : list SkippedRow :=
  map (fun r => mkSkipped (rejected r) now "invalid_dates")
      (filter fails_to_parse df).

Lemma kept_rows (df : list Row) :
  map (fun r => set_datetime_wib (datetime_utc r) r)
    (filter (fun r => notna (datetime_utc r))
       (map (fun r => set_datetime_utc (to_datetime (tanggal_publikasi r)) r)
            df))
  = valid_rows df.
Proof.
  induction df as [|r df IH]; [reflexivity|].
  cbn [map filter flat_map valid_rows]. fold (valid_rows df). rewrite <- IH.
  cbn [datetime_utc set_datetime_utc].
  destruct (to_datetime (tanggal_publikasi r)); reflexivity.
Qed.

Lemma invalid_rows (df : list Row) :
  filter (fun r => isna (datetime_utc r))
    (map (fun r => set_datetime_utc (to_datetime (tanggal_publikasi r)) r) df)
  = map rejected (filter fails_to_parse df).
Proof.
  induction df as [|r df IH]; [reflexivity|].
  cbn [map filter]. rewrite IH.
  cbn [datetime_utc set_datetime_utc tanggal_publikasi].
  assert (E : fails_to_parse r = isna (to_datetime (tanggal_publikasi r)))
    by reflexivity.
  rewrite E.
  destruct (to_datetime (tanggal_publikasi r)); reflexivity.
Qed.

Lemma valid_rows_In (df : list Row) (r' : Row) :
  In r' (valid_rows df)
  <-> exists r t, In r df /\ to_datetime (tanggal_publikasi r) = Some t
                  /\ r' = stamped r t.
Proof.
  unfold valid_rows. rewrite in_flat_map. split.
  - intros (r & Hin & H).
    destruct (to_datetime (tanggal_publikasi r)) as [t|] eqn:E; [|contradiction].
    destruct H as [<- | []]. now exists r, t.
  - intros (r & t & Hin & E & ->). exists r. split; trivial.
    rewrite E. now left.
Qed.

Lemma valid_invalid_length (df : list Row) :
  List.length (valid_rows df) + List.length (filter fails_to_parse df)
  = List.length df.
Proof.
  induction df as [|r df IH]; [reflexivity|].
  cbn [valid_rows flat_map filter]. fold (valid_rows df). unfold fails_to_parse at 1.
  destruct (to_datetime (tanggal_publikasi r)); cbn; lia.
Qed.

(** What [process_datetime] returns and what it leaves behind. *)
Lemma process_datetime_run (df : list Row) (w : World) :
  process_datetime to_datetime df w
  = (valid_rows df,
     match df with
     | [] => w
     | _ => mkWorld
              (set_articles_with_invalid_dates
                 (List.length (filter fails_to_parse df)) (stats w))
              (invalid_dates_log w ++ invalid_lines (clock w) df)%list
              (skipped_articles_log w) (clock w)
     end).
Proof.
  destruct df as [|r0 df0]; [reflexivity|].
  set (df := r0 :: df0).
  unfold process_datetime. change (is_empty df) with false. cbv iota.
  rewrite kept_rows, invalid_rows. unfold invalid_lines.
  rewrite length_map.
  destruct (filter fails_to_parse df) as [|x l] eqn:E.
  - cbn. rewrite app_nil_r. reflexivity.
  - cbn. rewrite map_map. reflexivity.
Qed.

(** C8.  Of the rows that enter [process_datetime], exactly those whose
    timestamp parses are returned, in their order, stamped with the
    instant; every row whose timestamp does not parse is left out of the
    returned frame and appended to the invalid-dates log with the reason
    "invalid_dates" and the time of processing; and the invalid-date
    counter of a non-empty frame is the number of those rows.  Nothing is
    dropped without a log line: returned rows and logged rows add up to
    the rows that entered. *)
Theorem process_datetime_spec (df : list Row) (w : World) :
  let out := fst (process_datetime to_datetime df w) in
  let w' := snd (process_datetime to_datetime df w) in
  out = valid_rows df
  /\ (forall r', In r' out
        <-> exists r t, In r df /\ to_datetime (tanggal_publikasi r) = Some t
                        /\ r' = stamped r t)
  /\ Forall (fun r' => datetime_utc r' <> None) out
  /\ invalid_dates_log w'
     = (invalid_dates_log w
        ++ map (fun r => mkSkipped (rejected r) (clock w) "invalid_dates")
               (filter fails_to_parse df))%list
  /\ (forall r, In r df -> to_datetime (tanggal_publikasi r) = None ->
        In (mkSkipped (rejected r) (clock w) "invalid_dates")
           (invalid_dates_log w'))
  /\ (df <> [] ->
      articles_with_invalid_dates (stats w')
      = List.length (filter fails_to_parse df))
  /\ List.length out
     + (List.length (invalid_dates_log w') - List.length (invalid_dates_log w))
     = List.length df
  /\ skipped_articles_log w' = skipped_articles_log w.
Proof.
  intros out w'. subst out w'. rewrite process_datetime_run.
  cbn [fst snd].
  assert (Hlog : match df with
                 | [] => invalid_dates_log w
                 | _ => (invalid_dates_log w ++ invalid_lines (clock w) df)%list
                 end
                 = (invalid_dates_log w ++ invalid_lines (clock w) df)%list).
  { destruct df; [cbn; now rewrite app_nil_r | reflexivity]. }
  assert (Hlog' :
    invalid_dates_log
      match df with
      | [] => w
      | _ => mkWorld
               (set_articles_with_invalid_dates
                  (List.length (filter fails_to_parse df)) (stats w))
               (invalid_dates_log w ++ invalid_lines (clock w) df)%list
               (skipped_articles_log w) (clock w)
      end
    = (invalid_dates_log w ++ invalid_lines (clock w) df)%list).
  { rewrite <- Hlog. now destruct df. }
  rewrite Hlog'.
  split; [reflexivity|].
  split; [intros r'; apply valid_rows_In|].
  split.
  { apply Forall_forall. intros r' Hin. apply valid_rows_In in Hin.
    destruct Hin as (r & t & _ & _ & ->). discriminate. }
  split; [reflexivity|].
  split.
  { intros r Hin Hnone. apply in_or_app. right. unfold invalid_lines.
    apply in_map_iff. exists r. split; trivial.
    apply filter_In. split; trivial. unfold fails_to_parse. now rewrite Hnone. }
  split; [now destruct df|].
  split; [|now destruct df].
  rewrite length_app. unfold invalid_lines. rewrite length_map.
  rewrite <- (valid_invalid_length df). lia.
Qed.

(** C9.  [deduplicate] is idempotent: run on its own result, in the state
    it left, it returns the same frame and leaves the same state. *)
Theorem deduplicate_idempotent (df : list Row) (w : World) :
  let r1 := deduplicate df w in
  deduplicate (fst r1) (snd r1) = r1
  /\ drop_duplicates (drop_duplicates df) = drop_duplicates df
  /\ NoDup (map dedup_key (fst r1)).
Proof.
  intros r1. subst r1.
  assert (Hid := drop_duplicates_from_idempotent [] df).
  fold (drop_duplicates df) in Hid. fold (drop_duplicates (drop_duplicates df)) in Hid.
  split; [|split; [exact Hid|]].
  - destruct df as [|r0 df0]; [reflexivity|].
    set (df := r0 :: df0) in *.
    unfold deduplicate at 2 3. change (is_empty df) with false. cbv iota.
    cbn [bind set_stats modify ret fst snd].
    unfold deduplicate.
    destruct (drop_duplicates df) as [|r1 d1] eqn:E; [reflexivity|].
    change (is_empty (r1 :: d1)) with false. cbv iota.
    rewrite Hid. reflexivity.
  - destruct df as [|r0 df0]; [constructor|].
    unfold deduplicate. change (is_empty (r0 :: df0)) with false. cbv iota.
    cbn [bind set_stats modify ret fst snd].
    apply drop_duplicates_from_NoDup.
Qed.

Lemma deduplicate_run (df : list Row) (w : World) :
  fst (deduplicate df w) = drop_duplicates df.
Proof. now destruct df. Qed.

Lemma deduplicate_run_world (df : list Row) (w : World) :
  snd (deduplicate df w)
  = match df with
    | [] => w
    | _ => mkWorld
             (set_articles_after_dedup (List.length (drop_duplicates df))
                                       (stats w))
             (invalid_dates_log w) (skipped_articles_log w) (clock w)
    end.
Proof. now destruct df. Qed.

(** The state after the two steps of the merge that touch it. *)
Lemma merge_world (all : list Row) (w : World) :
  let w' := snd (deduplicate (valid_rows all)
                   (snd (process_datetime to_datetime all w))) in
  invalid_dates_log w'
  = (invalid_dates_log w ++ invalid_lines (clock w) all)%list
  /\ skipped_articles_log w' = skipped_articles_log w
  /\ clock w' = clock w
  /\ (all <> [] ->
      articles_with_invalid_dates (stats w')
      = List.length (filter fails_to_parse all))
  /\ (valid_rows all <> [] ->
      articles_after_dedup (stats w')
      = List.length (drop_duplicates (valid_rows all)))
  /\ (valid_rows all = [] ->
      articles_after_dedup (stats w') = articles_after_dedup (stats w))
  /\ (all = [] -> w' = w).
Proof.
  intros w'. subst w'. rewrite deduplicate_run_world, process_datetime_run.
  cbn [snd].
  destruct all as [|a0 rest] eqn:Eall.
  - cbn. rewrite app_nil_r. repeat split; trivial; intros H; now elim H.
  - rewrite <- Eall.
    destruct (valid_rows all) as [|v vs] eqn:Ev; cbn; rewrite Eall;
      repeat split; trivial; try discriminate; intros H; now elim H.
Qed.

End WithParser.

(** The historical rows as the merge takes them: the normalized title is
    computed from the title when the file has no such column. *)
Definition historical_rows (existing : option Table) : list Row :=
  match existing with
  | None => []
  | Some df_old =>
      if has_judul_bersih df_old then rows df_old
      else map (fun r =>
                  set_judul_bersih
                    (Some (TextNormalizer.normalize_title (judul r))) r)
               (rows df_old)
  end.

(** The file has no normalized-title column and no title column to
    compute it from. *)
Definition no_title_column (existing : option Table) : bool :=
  match existing with
  | None => false
  | Some df_old => (negb (has_judul_bersih df_old) && negb (has_judul df_old))%bool
  end.

(** The file or the new frame has the event-time column. *)
Definition some_datetime_wib_column (existing : option Table) (df_new : Frame)
  : bool :=
  match existing with
  | None => frame_has_datetime_wib df_new
  | Some df_old => (has_datetime_wib df_old || frame_has_datetime_wib df_new)%bool
  end.

Lemma load_and_concat_eq (existing : option Table) (df_new : Frame) :
  load_and_concat existing df_new
  = if no_title_column existing then Raised (KeyError "judul")
    else Returned
           (mkFrame (some_datetime_wib_column existing df_new)
                    (historical_rows existing ++ frame_rows df_new)%list).
Proof.
  destruct existing as [[[] [] hw old]|]; try reflexivity.
  now destruct df_new.
Qed.

Section WithColumnParser.

Variable to_datetime : list cell -> cell -> option Z.

(** What [merge_with_existing] gives and the state it leaves. *)
Lemma merge_with_existing_run (existing : option Table) (df_new : Frame)
  (w : World) :
  let all := (historical_rows existing ++ frame_rows df_new)%list in
  let parse := to_datetime (map tanggal_publikasi all) in
  merge_with_existing to_datetime existing df_new w
  = if no_title_column existing then (Raised (KeyError "judul"), w)
    else
      (if (some_datetime_wib_column existing df_new
           || negb (is_empty all))%bool
       then Returned (sort_values_desc (drop_duplicates (valid_rows parse all)))
       else Raised (KeyError "datetime_wib"),
       snd (deduplicate (valid_rows parse all)
              (snd (process_datetime parse all w)))).
Proof.
  intros all parse. unfold merge_with_existing.
  rewrite load_and_concat_eq.
  destruct (no_title_column existing); [reflexivity|].
  cbn [frame_rows frame_has_datetime_wib]. fold all. fold parse.
  unfold bind. rewrite process_datetime_run.
  set (w1 := match all with [] => w | _ => _ end).
  rewrite (surjective_pairing (deduplicate (valid_rows parse all) w1)).
  rewrite deduplicate_run.
  destruct (some_datetime_wib_column existing df_new
            || negb (is_empty all))%bool; reflexivity.
Qed.

(** C1, as amended.  [merge_with_existing] takes the historical rows
    (with the normalized title computed from the title when the file has
    no such column) followed by the new rows, and validates the
    timestamps of all of them again: a row whose timestamp does not parse
    is left out of the result and appended to the invalid-dates log with
    the reason "invalid_dates" and the time of the merge, and the
    invalid-date counter is the number of such rows.  Of the remaining
    rows with one (link, normalized title) pair it keeps the first, sets
    the after-dedup counter to the number of rows kept, and sorts by event
    time, latest first.  The result has no two rows with the same pair.
    The merge raises [KeyError] instead, and leaves the state as it was,
    in two cases and no other: when the file has neither the
    normalized-title column nor the title column, and when there is no
    row at all and neither the file nor the new frame has the event-time
    column.  The parser is that of the date column of the
    concatenation. *)
Theorem merge_with_existing_spec (existing : option Table)
  (df_new : Frame) (w : World) :
  let res := merge_with_existing to_datetime existing df_new w in
  let w' := snd res in
  let all := (historical_rows existing ++ frame_rows df_new)%list in
  let parse := to_datetime (map tanggal_publikasi all) in
  let valid := valid_rows parse all in
  match fst res with
  | Raised e =>
      w' = w
      /\ ((e = KeyError "judul" /\ no_title_column existing = true)
          \/ (e = KeyError "datetime_wib"
              /\ no_title_column existing = false
              /\ all = []
              /\ some_datetime_wib_column existing df_new = false))
  | Returned out =>
      no_title_column existing = false
      /\ (all <> [] \/ some_datetime_wib_column existing df_new = true)
      /\ Permutation (drop_duplicates valid) out
      /\ (forall r, In r out <-> first_with_key r valid)
      /\ StronglySorted not_earlier out
      /\ NoDup (map dedup_key out)
      /\ (forall k, In k (map dedup_key out) <-> In k (map dedup_key valid))
      /\ (forall r', In r' out ->
            exists r t, In r all
                        /\ parse (tanggal_publikasi r) = Some t
                        /\ r' = stamped r t)
      /\ Forall (fun r' => parse (tanggal_publikasi r') <> None) out
      /\ invalid_dates_log w'
         = (invalid_dates_log w
            ++ map (fun r => mkSkipped (rejected r) (clock w) "invalid_dates")
                   (filter (fails_to_parse parse) all))%list
      /\ (forall r, In r all -> parse (tanggal_publikasi r) = None ->
            In (mkSkipped (rejected r) (clock w) "invalid_dates")
               (invalid_dates_log w'))
      /\ (all <> [] ->
          articles_with_invalid_dates (stats w')
          = List.length (filter (fails_to_parse parse) all))
      /\ (valid <> [] -> articles_after_dedup (stats w') = List.length out)
      /\ (valid = [] ->
          articles_after_dedup (stats w') = articles_after_dedup (stats w))
      /\ skipped_articles_log w' = skipped_articles_log w
  end.
Proof.
  intros res w' all parse valid. subst w' res valid.
  rewrite merge_with_existing_run. fold all. fold parse.
  destruct (no_title_column existing) eqn:Etitle.
  { cbn [fst snd]. split; [reflexivity|]. left. now split. }
  cbn [fst snd].
  destruct (merge_world parse all w)
    as (Wlog & Wskip & _ & Winv & Wdd & Wdd0 & Wid).
  set (valid := valid_rows parse all) in *.
  set (w' := snd (deduplicate valid (snd (process_datetime parse all w))))
    in *.
  destruct (some_datetime_wib_column existing df_new
            || negb (is_empty all))%bool eqn:Ecol.
  2:{ apply orb_false_elim in Ecol. destruct Ecol as [Ec Ee].
      assert (Eall : all = []) by (destruct all; [reflexivity | discriminate]).
      split; [now apply Wid|]. right. repeat split; trivial. }
  set (out := sort_values_desc (drop_duplicates valid)).
  assert (Hperm : Permutation (drop_duplicates valid) out)
    by apply sort_values_desc_perm.
  assert (Hfirst : forall r, In r out <-> first_with_key r valid).
  { intros r. split.
    - intros Hin. apply (Permutation_in _ (Permutation_sym Hperm)) in Hin.
      now apply drop_duplicates_from_In in Hin.
    - intros Hf. apply (Permutation_in _ Hperm).
      apply drop_duplicates_from_In. split; [intros []|exact Hf]. }
  assert (Hfrom : forall r', In r' out ->
            exists r t, In r all
                        /\ parse (tanggal_publikasi r) = Some t
                        /\ r' = stamped r t).
  { intros r' Hin. apply (Permutation_in _ (Permutation_sym Hperm)) in Hin.
    apply drop_duplicates_from_In in Hin.
    destruct Hin as (_ & before & after & E & _).
    apply valid_rows_In. fold valid. rewrite E.
    apply in_or_app. right. now left. }
  split; [reflexivity|].
  split.
  { apply orb_true_iff in Ecol. destruct Ecol as [Ec | Ee]; [now right|].
    left. intros E. rewrite E in Ee. discriminate. }
  split; [exact Hperm|].
  split; [exact Hfirst|].
  split; [apply sort_values_desc_sorted|].
  split.
  { apply (Permutation_NoDup (Permutation_map dedup_key Hperm)).
    apply drop_duplicates_from_NoDup. }
  split.
  { intros k. split; intros H.
    - apply drop_duplicates_keys.
      eapply Permutation_in; [apply Permutation_sym, Permutation_map, Hperm|].
      exact H.
    - eapply Permutation_in; [apply Permutation_map, Hperm|].
      now apply drop_duplicates_keys. }
  split; [exact Hfrom|].
  split.
  { apply Forall_forall. intros r' Hin.
    destruct (Hfrom r' Hin) as (r & t & _ & E & ->).
    cbn [stamped set_datetime_wib set_datetime_utc tanggal_publikasi].
    rewrite E. discriminate. }
  split; [exact Wlog|].
  split.
  { intros r Hin Hnone. rewrite Wlog. apply in_or_app. right.
    unfold invalid_lines. apply in_map_iff. exists r. split; trivial.
    apply filter_In. split; trivial. unfold fails_to_parse. now rewrite Hnone. }
  split; [exact Winv|].
  split.
  { intros Hne. rewrite (Wdd Hne). apply (Permutation_length Hperm). }
  split; [exact Wdd0 | exact Wskip].
Qed.

End WithColumnParser.

(** The merge read without the second timestamp validation: historical
    rows (the normalized title computed where a row has none) followed by
    the new rows, first row of each key kept, sorted by event time.  It
    follows the description, not the source, and is compared with the
    source below. *)
Definition merge_as_described (existing : option Table) (df_new : list Row)
  : list Row :=
  let old_rows :=
    match existing with
    | None => []
    | Some df_old =>
        map (fun r =>
               match judul_bersih r with
               | None =>
                   set_judul_bersih
                     (Some (TextNormalizer.normalize_title (judul r))) r
               | Some _ => r
               end) (rows df_old)
    end in
  sort_values_desc (drop_duplicates (old_rows ++ df_new)%list).

(** The cells of the examples and the instants they parse to (seconds
    since the epoch); every other cell of the examples, the missing cell
    included, does not parse. *)
Definition to_datetime_example (c : cell) : option Z :=
  match c with
  | Some s =>
      if String.eqb s "2024-05-01T10:00:00+00:00" then Some 1714557600%Z
      else if String.eqb s "2024-05-02T08:30:00+00:00" then Some 1714638600%Z
      else None
  | None => None
  end.

Definition world_example : World :=
  mkWorld (mkStats 0 0 0 0 0 0 0) [] [] "2024-05-03T00:00:00+00:00".

(** A historical row whose date cell is missing. *)
Definition row_banjir : Row :=
  mkRow (Some "Banjir rendam Jakarta") (Some "https://contoh.id/banjir")
        (Some "Ratusan rumah terendam") None
        (Some "banjir rendam jakarta") None None [].

(** A new row, already processed. *)
Definition row_gempa : Row :=
  mkRow (Some "Gempa guncang Bali") (Some "https://contoh.id/gempa")
        (Some "Warga berhamburan") (Some "2024-05-01T10:00:00+00:00")
        (Some "gempa guncang bali") (Some 1714557600%Z) (Some 1714557600%Z) [].

(** The same article fetched again, and another one with a date that does
    not parse. *)
Definition row_gempa_again : Row :=
  mkRow (Some "Gempa Guncang Bali!") (Some "https://contoh.id/gempa")
        (Some "Warga berhamburan keluar") (Some "2024-05-02T08:30:00+00:00")
        (Some "gempa guncang bali") None None [].

Definition row_longsor : Row :=
  mkRow (Some "Longsor di Bogor") (Some "https://contoh.id/longsor")
        None (Some "kemarin sore")
        (Some "longsor di bogor") None None [].

(** A historical row of a file that has the normalized-title column,
    with nothing in that cell. *)
Definition row_kebakaran : Row :=
  mkRow (Some "Kebakaran hutan di Riau") (Some "https://contoh.id/kebakaran")
        None (Some "2024-05-02T08:30:00+00:00")
        None (Some 1714638600%Z) (Some 1714638600%Z) [].

(** The parser of the examples reads every column alike. *)
Definition to_datetime_any_column (column : list cell) : cell -> option Z :=
  to_datetime_example.

(** C1, the statement as written fails: a historical row whose timestamp
    does not parse is dropped by the merge before duplicates are removed,
    so the result is not the de-duplicated, sorted concatenation; a
    historical row with an empty normalized-title cell keeps it empty when
    the file has the column; with no file and a new frame that has
    neither a row nor the event-time column the merge raises instead of
    returning the empty result; and so it does on a file with neither a
    normalized-title nor a title column. *)
Lemma merge_drops_unparsed_history :
  (fst (merge_with_existing to_datetime_any_column
          (Some (mkTable true true true [row_banjir]))
          (mkFrame true [row_gempa]) world_example)
   = Returned [row_gempa]
   /\ merge_as_described (Some (mkTable true true true [row_banjir]))
        [row_gempa]
      = [row_gempa; row_banjir])
  /\ (fst (merge_with_existing to_datetime_any_column
             (Some (mkTable true true true [row_kebakaran]))
             (mkFrame true [row_gempa]) world_example)
      = Returned [row_kebakaran; row_gempa]
      /\ merge_as_described (Some (mkTable true true true [row_kebakaran]))
           [row_gempa]
         = [set_judul_bersih (Some "kebakaran hutan di riau") row_kebakaran;
            row_gempa])
  /\ (fst (merge_with_existing to_datetime_any_column None (mkFrame false [])
             world_example)
      = Raised (KeyError "datetime_wib")
      /\ merge_as_described None [] = [])
  /\ (fst (merge_with_existing to_datetime_any_column
             (Some (mkTable false false true [])) (mkFrame true [row_gempa])
             world_example)
      = Raised (KeyError "judul")
      /\ merge_as_described (Some (mkTable false false true [])) [row_gempa]
         = [row_gempa])
  /\ fst (merge_with_existing to_datetime_any_column
            (Some (mkTable true true true [row_banjir]))
            (mkFrame true [row_gempa]) world_example)
     <> Returned
          (merge_as_described (Some (mkTable true true true [row_banjir]))
             [row_gempa])
  /\ fst (merge_with_existing to_datetime_any_column
            (Some (mkTable true true true [row_kebakaran]))
            (mkFrame true [row_gempa]) world_example)
     <> Returned
          (merge_as_described (Some (mkTable true true true [row_kebakaran]))
             [row_gempa])
  /\ fst (merge_with_existing to_datetime_any_column None (mkFrame false [])
            world_example)
     <> Returned (merge_as_described None [])
  /\ fst (merge_with_existing to_datetime_any_column
            (Some (mkTable false false true [])) (mkFrame true [row_gempa])
            world_example)
     <> Returned
          (merge_as_described (Some (mkTable false false true []))
             [row_gempa]).
Proof.
  repeat match goal with |- _ /\ _ => split end; vm_compute;
    solve [reflexivity | discriminate].
Qed.

(** The scenarios of the specification: two rows with one link and equal
    normalized titles collapse to the first; a row whose date does not
    parse is left out and logged with its reason, by the merge as by the
    validation before it.  A file with a header and no row gives the empty
    result, and a file without the normalized-title column gets it from
    the titles. *)
Example merge_scenarios :
  merge_with_existing to_datetime_any_column
    (Some (mkTable true true true [row_gempa]))
    (mkFrame true [row_gempa_again; row_longsor]) world_example
  = (Returned [row_gempa],
     mkWorld (mkStats 0 0 0 1 1 0 0)
             [mkSkipped row_longsor "2024-05-03T00:00:00+00:00"
                        "invalid_dates"]
             [] "2024-05-03T00:00:00+00:00")
  /\ invalid_dates_log
       (snd (process_datetime to_datetime_example
               [row_gempa_again; row_longsor] world_example))
     = [mkSkipped row_longsor "2024-05-03T00:00:00+00:00" "invalid_dates"]
  /\ articles_with_invalid_dates
       (stats (snd (process_datetime to_datetime_example
                      [row_gempa_again; row_longsor] world_example)))
     = 1
  /\ merge_with_existing to_datetime_any_column
       (Some (mkTable true true true [])) (mkFrame false []) world_example
     = (Returned [], world_example)
  /\ fst (merge_with_existing to_datetime_any_column
            (Some (mkTable true false false [row_kebakaran]))
            (mkFrame false []) world_example)
     = Returned
         [set_judul_bersih (Some "kebakaran hutan di riau") row_kebakaran].
Proof.
  repeat match goal with |- _ /\ _ => split end; vm_compute; reflexivity.
Qed.

End ScraperFacts.

(* ------------------------------------------------------------------ *)
(** ** The search URL and the source domain *)

Module UrlFacts.

Import Latin1 Str StrFacts TextNormalizer Feed.

(** Every space turned into a plus sign. *)
Definition plus_for_space (s : string) : string :=
  map_chars (fun c => if Ascii.eqb c " " then "+"%char else c) s.

Lemma append_assoc (a b c : string) : (a ++ b) ++ c = a ++ (b ++ c).
Proof. induction a as [|x a IH]; simpl; [reflexivity | now rewrite IH]. Qed.

Lemma length_append (a b : string) :
  String.length (a ++ b) = String.length a + String.length b.
Proof. induction a as [|x a IH]; simpl; [reflexivity | now rewrite IH]. Qed.

Lemma map_chars_append (f : ascii -> ascii) (a b : string) :
  map_chars f (a ++ b) = map_chars f a ++ map_chars f b.
Proof. induction a as [|c a IH]; simpl; [reflexivity | now rewrite IH]. Qed.

Lemma forallb_chars_append (p : ascii -> bool) (a b : string) :
  forallb_chars p (a ++ b) = (forallb_chars p a && forallb_chars p b)%bool.
Proof.
  induction a as [|c a IH]; simpl; [reflexivity|].
  now rewrite IH, andb_assoc.
Qed.

(** Replacing a one-character text works character by character. *)
Lemma replace_one_char (a b : ascii) (s : string) :
  replace (String a "") (String b "") s
  = map_chars (fun c => if Ascii.eqb c a then b else c) s.
Proof.
  unfold replace. induction s as [|c s IH]; [reflexivity|].
  cbn [replace_from map_chars String.length Nat.sub].
  unfold starts_with. cbn [strip_prefix].
  rewrite (Ascii.eqb_sym a c).
  destruct (Ascii.eqb c a); cbn [append]; now rewrite IH.
Qed.

Lemma no_char_no_substring (c : ascii) (s : string) :
  forallb_chars (fun x => negb (Ascii.eqb x c)) s = true ->
  ~ Substring (String c "") s.
Proof.
  intros H (pre & post & ->).
  rewrite forallb_chars_append in H. apply andb_true_iff in H.
  destruct H as [_ H]. cbn in H. now rewrite Ascii.eqb_refl in H.
Qed.

Lemma plus_for_space_no_space (s : string) :
  forallb_chars (fun x => negb (Ascii.eqb x " ")) (plus_for_space s) = true.
Proof.
  unfold plus_for_space. induction s as [|c s IH]; [reflexivity|].
  cbn [map_chars forallb_chars]. rewrite IH, andb_true_r.
  destruct (Ascii.eqb c " ") eqn:E; [reflexivity | now rewrite E].
Qed.

Lemma plus_for_space_length (s : string) :
  String.length (plus_for_space s) = String.length s.
Proof.
  unfold plus_for_space.
  induction s as [|c s IH]; simpl; [reflexivity | now rewrite IH].
Qed.

(** X2.  The search URL is the fixed address, the query with every space
    turned into a plus sign, "+when:", the time window treated the same
    way, and the three fixed locale parameters; it holds no space,
    whatever the query and the time window are.  No other character of
    the query is escaped. *)
Theorem build_search_url_shape (time_window query : string) :
  build_search_url time_window query
  = "https://news.google.com/rss/search?q=" ++ plus_for_space query
    ++ "+when:" ++ plus_for_space time_window
    ++ "&hl=id&gl=ID&ceid=ID:id"
  /\ ~ Substring " " (build_search_url time_window query)
  /\ String.length (build_search_url time_window query)
     = 66 + String.length query + String.length time_window.
Proof.
  assert (E : build_search_url time_window query
              = "https://news.google.com/rss/search?q=" ++ plus_for_space query
                ++ "+when:" ++ plus_for_space time_window
                ++ "&hl=id&gl=ID&ceid=ID:id").
  { unfold build_search_url. rewrite replace_one_char.
    fold (plus_for_space (query ++ " when:" ++ time_window)).
    unfold plus_for_space. rewrite !map_chars_append, !append_assoc.
    reflexivity. }
  split; [exact E|]. rewrite E. split.
  - apply no_char_no_substring.
    rewrite !forallb_chars_append, !plus_for_space_no_space. reflexivity.
  - rewrite !length_append, !plus_for_space_length. cbn. lia.
Qed.

Lemma lower_char_idempotent (c : ascii) :
  lower_char (lower_char c) = lower_char c.
Proof. destruct c as [[] [] [] [] [] [] [] []]; reflexivity. Qed.

Lemma lower_idempotent (s : string) : lower (lower s) = lower s.
Proof.
  unfold lower. induction s as [|c s IH]; [reflexivity|].
  cbn. now rewrite lower_char_idempotent, IH.
Qed.

Lemma lower_append (a b : string) : lower (a ++ b) = lower a ++ lower b.
Proof. apply map_chars_append. Qed.

(** Deleting the occurrences of a text brings in no new character. *)
Lemma replace_from_chars (p : ascii -> bool) (old : string) (k : nat)
  (s : string) :
  old <> "" ->
  forallb_chars p s = true ->
  forallb_chars p (replace_from old "" k s) = true.
Proof.
  intros Hold. destruct old as [|a old]; [now elim Hold|].
  revert k; induction s as [|c s IH]; intros k H; [reflexivity|].
  cbn [forallb_chars] in H. apply andb_true_iff in H. destruct H as [Hc Hs].
  cbn [replace_from]. destruct k as [|k]; [|now apply IH].
  destruct (starts_with (String a old) (String c s)).
  - cbn [append]. now apply IH.
  - cbn [forallb_chars]. rewrite Hc. now apply IH.
Qed.

Definition is_lower_char (c : ascii) : bool := Ascii.eqb (lower_char c) c.

Lemma lower_fixed (s : string) :
  forallb_chars is_lower_char s = true <-> lower s = s.
Proof.
  unfold lower, is_lower_char. induction s as [|c s IH]; [tauto|].
  cbn. rewrite andb_true_iff, IH, Ascii.eqb_eq.
  split; [intros [-> ->]; reflexivity | intros [= -> ->]; tauto].
Qed.

Lemma lower_is_lower (s : string) : forallb_chars is_lower_char (lower s) = true.
Proof. apply lower_fixed, lower_idempotent. Qed.

Lemma clean_domain_of_lower (n : string) :
  n <> "" ->
  clean_domain (Some (lower n)) = replace "www." "" (lower n).
Proof.
  intros Hn. destruct n as [|c n]; [now elim Hn|].
  change (clean_domain (Some (lower (String c n))))
    with (lower (replace "www." "" (lower (String c n)))).
  apply lower_fixed. apply replace_from_chars; [discriminate|].
  apply lower_is_lower.
Qed.

Section WithUrlparse.

Variable netloc_of : string -> option string.

(** X3.  The domain [extract_domain] gives for a URL is always in lower
    case.  It is "unknown" when [urlparse] raises or the URL has no host;
    otherwise it is the lower-cased host with every "www." deleted, so at
    this level the prefix is stripped whatever the letter case of the
    host: a host that reads "www." + r in lower case, with no further
    "www." in r, gives r. *)
Theorem extract_domain_lower_case (url : string) :
  lower (extract_domain netloc_of url) = extract_domain netloc_of url
  /\ (netloc_of url = None -> extract_domain netloc_of url = "unknown")
  /\ (netloc_of url = Some "" -> extract_domain netloc_of url = "unknown")
  /\ (forall n, netloc_of url = Some n -> n <> "" ->
        extract_domain netloc_of url = replace "www." "" (lower n))
  /\ (forall n r, netloc_of url = Some n -> lower n = "www." ++ r ->
        ~ Substring "www." r ->
        extract_domain netloc_of url = r).
Proof.
  unfold extract_domain.
  destruct (netloc_of url) as [n|]; [|repeat split; congruence].
  destruct n as [|c n].
  - repeat split; try congruence.
    intros n r [= <-] E. discriminate.
  - assert (Hn : String c n <> "") by discriminate.
    rewrite (clean_domain_of_lower _ Hn).
    split.
    { apply lower_fixed. apply replace_from_chars; [discriminate|].
      apply lower_is_lower. }
    split; [discriminate|]. split; [discriminate|]. split.
    + intros n' [= <-] _. reflexivity.
    + intros n' r [= <-] E Hno. rewrite E.
      change (replace "www." "" ("www." ++ r)) with (replace "www." "" r).
      apply CleanDomainFacts.replace_no_occurrence; [discriminate | exact Hno].
Qed.

End WithUrlparse.

(** A host written in capitals, and a host that is only the prefix. *)
Example extract_domain_examples :
  extract_domain (fun _ => Some "WWW.Detik.COM") "https://WWW.Detik.COM/a"
  = "detik.com"
  /\ extract_domain (fun _ => Some "www.") "https://www./" = ""
  /\ extract_domain (fun _ => Some "") "/berita/1" = "unknown".
Proof. repeat split. Qed.

End UrlFacts.

(* ------------------------------------------------------------------ *)
(** ** From the feed to the raw frame *)

Module FeedFacts.

Import Latin1 Str StrFacts Scraper Feed UrlFacts.

Lemma digit_inj (a b : Z) :
  (0 <= a <= 9)%Z -> (0 <= b <= 9)%Z -> digit a = digit b -> a = b.
Proof.
  intros Ha Hb H. unfold digit in H.
  apply (f_equal N_of_ascii) in H.
  assert (Hlt : forall d, (0 <= d <= 9)%Z -> (Z.to_N (48 + d) < 256)%N).
  { intros d Hd. change 256%N with (Z.to_N 256). apply Z2N.inj_lt; lia. }
  rewrite !N_ascii_embedding in H by now apply Hlt.
  apply Z2N.inj in H; lia.
Qed.

Lemma valid_datetime_ranges (t : struct_time) :
  valid_datetime t = true ->
  (1 <= tm_year t <= 9999 /\ 1 <= tm_mon t <= 12 /\ 1 <= tm_mday t <= 31
   /\ 0 <= tm_hour t <= 23 /\ 0 <= tm_min t <= 59 /\ 0 <= tm_sec t <= 59)%Z.
Proof.
  unfold valid_datetime. rewrite !andb_true_iff, !Z.leb_le.
  assert (days_in_month (tm_year t) (tm_mon t) <= 31)%Z.
  { unfold days_in_month.
    destruct (_ =? 2)%Z; [destruct (is_leap _); lia|].
    destruct (_ || _)%bool; lia. }
  lia.
Qed.

(** The text of a valid time, character by character. *)
Lemma isoformat_utc_Some (t : struct_time) (s : string) :
  isoformat_utc t = Some s ->
  valid_datetime t = true
  /\ s = dec2 (tm_year t / 100) ++ dec2 (tm_year t mod 100) ++ "-"
         ++ dec2 (tm_mon t) ++ "-" ++ dec2 (tm_mday t) ++ "T"
         ++ dec2 (tm_hour t) ++ ":" ++ dec2 (tm_min t) ++ ":"
         ++ dec2 (tm_sec t) ++ "+00:00".
Proof.
  unfold isoformat_utc. destruct (valid_datetime t); [|discriminate].
  intros [= <-]. split; reflexivity.
Qed.

Lemma isoformat_utc_inj (t1 t2 : struct_time) (s : string) :
  isoformat_utc t1 = Some s -> isoformat_utc t2 = Some s -> t1 = t2.
Proof.
  intros H1 H2.
  apply isoformat_utc_Some in H1. destruct H1 as [V1 E1].
  apply isoformat_utc_Some in H2. destruct H2 as [V2 E2].
  apply valid_datetime_ranges in V1, V2.
  rewrite E1 in E2. clear E1 s. unfold dec2 in E2. cbn [append] in E2.
  injection E2 as Y1 Y2 Y3 Y4 M1 M2 D1 D2 h1 h2 m1 m2 s1 s2.
  destruct t1 as [y1 mo1 d1 ho1 mi1 se1], t2 as [y2 mo2 d2 ho2 mi2 se2].
  cbn [tm_year tm_mon tm_mday tm_hour tm_min tm_sec] in *.
  apply digit_inj in Y1, Y2, Y3, Y4, M1, M2, D1, D2, h1, h2, m1, m2, s1, s2;
    try (Z.div_mod_to_equations; lia).
  f_equal; Z.div_mod_to_equations; lia.
Qed.

Lemma isoformat_utc_length (t : struct_time) (s : string) :
  isoformat_utc t = Some s -> String.length s = 25.
Proof.
  intros H. apply isoformat_utc_Some in H. destruct H as [_ ->]. reflexivity.
Qed.

Section WithNetwork.

Variable netloc_of : string -> option string.
Variable fetch_rss : string -> option (list Entry).
Variable time_window : string.

(** An entry whose parsed time the [datetime] constructor refuses. *)
Definition bad_time (entry : Entry) : Prop :=
  exists t, published_parsed entry = Some t /\ valid_datetime t = false.

(** What an article is made of. *)
Definition article_of (keyword : string) (entry : Entry) (a : Article) : Prop :=
  a_kata_kunci a = keyword
  /\ a_judul a = match entry_title entry with Some t => t | None => "" end
  /\ a_domain a = extract_domain netloc_of (a_link a)
  /\ lower (a_domain a) = a_domain a
  /\ match published_parsed entry with
     | Some t => isoformat_utc t = Some (a_tanggal_publikasi a)
                 /\ String.length (a_tanggal_publikasi a) = 25
     | None => a_tanggal_publikasi a
               = match published entry with Some s => s | None => "" end
     end.

Lemma parse_entry_None (keyword : string) (entry : Entry) :
  parse_entry netloc_of keyword entry = None <-> bad_time entry.
Proof.
  unfold parse_entry, bad_time, isoformat_utc.
  destruct (published_parsed entry) as [t|].
  - destruct (valid_datetime t) eqn:V.
    + split; [discriminate|]. intros (t' & [= <-] & V'). congruence.
    + split; [|reflexivity]. intros _. now exists t.
  - split; [discriminate|]. intros (t & E & _). discriminate.
Qed.

Lemma parse_entry_Some (keyword : string) (entry : Entry) (a : Article) :
  parse_entry netloc_of keyword entry = Some a -> article_of keyword entry a.
Proof.
  unfold parse_entry, article_of.
  destruct (published_parsed entry) as [t|].
  - destruct (isoformat_utc t) as [s|] eqn:E; [|discriminate].
    intros [= <-]. cbn. repeat split; trivial.
    + apply extract_domain_lower_case.
    + now apply isoformat_utc_length in E.
  - intros [= <-]. cbn. repeat split; trivial.
    apply extract_domain_lower_case.
Qed.

Lemma parse_feed_entries_None (entries : list Entry) (keyword : string) :
  parse_feed_entries netloc_of entries keyword = None
  <-> Exists bad_time entries.
Proof.
  induction entries as [|e entries IH]; cbn [parse_feed_entries].
  - split; [discriminate | intros H; inversion H].
  - rewrite Exists_cons, <- IH, <- (parse_entry_None keyword).
    destruct (parse_entry netloc_of keyword e) as [a|].
    + destruct (parse_feed_entries netloc_of entries keyword);
        split; try discriminate; try tauto.
      intros [H | H]; discriminate.
    + tauto.
Qed.

Lemma parse_feed_entries_Some (entries : list Entry) (keyword : string)
  (articles : list Article) :
  parse_feed_entries netloc_of entries keyword = Some articles ->
  Forall2 (article_of keyword) entries articles.
Proof.
  revert articles; induction entries as [|e entries IH]; intros articles;
    cbn [parse_feed_entries].
  - intros [= <-]. constructor.
  - destruct (parse_entry netloc_of keyword e) as [a|] eqn:Ea; [|discriminate].
    destruct (parse_feed_entries netloc_of entries keyword) as [rest|];
      [|discriminate].
    intros [= <-]. constructor; [now apply parse_entry_Some | now apply IH].
Qed.

(** X4.  [scrape_keyword] fails, with no article, exactly when the fetch
    raises or some entry of the feed carries a parsed time that is not a
    valid date (one such entry loses the whole keyword).  When it succeeds
    it gives one article per entry, in order, each tagged with the
    keyword and with a lower-case domain; an entry with a parsed time gets
    the 25-character ISO text of that time, and two entries get the same
    text only if their parsed times agree; an entry without one gets its
    raw date text, or the empty string. *)
Theorem scrape_keyword_outcome (keyword : string) :
  let url := build_search_url time_window keyword in
  let articles := fst (scrape_keyword netloc_of fetch_rss time_window keyword) in
  let success := snd (scrape_keyword netloc_of fetch_rss time_window keyword) in
  (success = false
   <-> fetch_rss url = None
       \/ exists entries, fetch_rss url = Some entries
                          /\ Exists bad_time entries)
  /\ (success = false -> articles = [])
  /\ (forall entries, fetch_rss url = Some entries -> success = true ->
        Forall2 (article_of keyword) entries articles)
  /\ (forall t1 t2 s, isoformat_utc t1 = Some s -> isoformat_utc t2 = Some s ->
        t1 = t2).
Proof.
  intros url articles success. subst articles success.
  unfold scrape_keyword. fold url.
  destruct (fetch_rss url) as [entries|].
  - destruct (parse_feed_entries netloc_of entries keyword) as [arts|] eqn:E;
      cbn [fst snd].
    + split.
      { split; [discriminate|].
        intros [H | (es & [= <-] & H)]; [discriminate|].
        apply (proj2 (parse_feed_entries_None _ keyword)) in H. congruence. }
      split; [discriminate|]. split; [|exact isoformat_utc_inj].
      intros es [= <-] _. now apply parse_feed_entries_Some.
    + split.
      { split; [|reflexivity]. intros _. right. exists entries.
        split; trivial. now apply (proj1 (parse_feed_entries_None _ keyword)). }
      split; [reflexivity|]. split; [discriminate | exact isoformat_utc_inj].
  - cbn [fst snd]. split; [split; [now left | reflexivity]|].
    split; [reflexivity|]. split; [discriminate | exact isoformat_utc_inj].
Qed.

Definition succeeded (keyword : string) : bool :=
  snd (scrape_keyword netloc_of fetch_rss time_window keyword).

(** The articles of the keywords, in the order of the keywords. *)
Definition fetched (keywords : list string) : list Article :=
  flat_map (fun k => fst (scrape_keyword netloc_of fetch_rss time_window k))
           keywords.

(** Nothing of the state but the two keyword counters differs. *)
Definition keyword_counters_only (w w' : World) : Prop :=
  articles_fetched (stats w') = articles_fetched (stats w)
  /\ articles_after_location_filter (stats w')
     = articles_after_location_filter (stats w)
  /\ articles_after_disaster_filter (stats w')
     = articles_after_disaster_filter (stats w)
  /\ articles_after_dedup (stats w') = articles_after_dedup (stats w)
  /\ articles_with_invalid_dates (stats w')
     = articles_with_invalid_dates (stats w)
  /\ invalid_dates_log w' = invalid_dates_log w
  /\ skipped_articles_log w' = skipped_articles_log w
  /\ clock w' = clock w.

Lemma scrape_loop_spec (keywords : list string) (acc : list Article)
  (w : World) :
  let res := scrape_loop netloc_of fetch_rss time_window keywords acc w in
  fst res = (acc ++ fetched keywords)%list
  /\ keywords_scraped (stats (snd res))
     = keywords_scraped (stats w) + List.length (filter succeeded keywords)
  /\ keywords_failed (stats (snd res))
     = keywords_failed (stats w)
       + List.length (filter (fun k => negb (succeeded k)) keywords)
  /\ keyword_counters_only w (snd res).
Proof.
  revert acc w. induction keywords as [|k ks IH]; intros acc w; cbv zeta.
  - cbn. rewrite app_nil_r, !Nat.add_0_r. unfold keyword_counters_only.
    repeat split; reflexivity.
  - cbn [scrape_loop fetched flat_map filter]. fold (fetched ks).
    assert (Es : succeeded k
                 = snd (scrape_keyword netloc_of fetch_rss time_window k))
      by reflexivity.
    rewrite !Es. clear Es.
    destruct (scrape_keyword netloc_of fetch_rss time_window k)
      as [articles success] eqn:E.
    cbn [fst snd negb].
    destruct success; cbn [negb bind set_stats modify].
    + specialize (IH (acc ++ articles)%list
          (mkWorld (set_keywords_scraped (keywords_scraped (stats w) + 1)
                                         (stats w))
                   (invalid_dates_log w) (skipped_articles_log w) (clock w))).
      cbv zeta in IH. destruct IH as (H1 & H2 & H3 & H4).
      rewrite H1, H2, H3. cbn. rewrite <- app_assoc.
      split; [reflexivity|]. split; [lia|]. split; [lia|]. apply H4.
    + specialize (IH acc
          (mkWorld (set_keywords_failed (keywords_failed (stats w) + 1)
                                        (stats w))
                   (invalid_dates_log w) (skipped_articles_log w) (clock w))).
      cbv zeta in IH. destruct IH as (H1 & H2 & H3 & H4).
      rewrite H1, H2, H3. cbn.
      assert (Hempty : articles = []).
      { unfold scrape_keyword in E.
        destruct (fetch_rss _); [|congruence].
        destruct (parse_feed_entries _ _ _); congruence. }
      rewrite Hempty.
      split; [reflexivity|]. split; [lia|]. split; [lia|]. apply H4.
Qed.

(** X5.  [scrape_all_keywords] tries every keyword once, whether earlier
    ones failed or not: the two keyword counters grow by the numbers of
    keywords that succeeded and that failed, together by the number of
    keywords.  The frame holds the articles of the keywords that
    succeeded, in keyword order, and [articles_fetched] is its number of
    rows; a keyword that failed adds no row.  No other counter and no log
    changes. *)
Theorem scrape_all_keywords_accounting (keywords : option (list string))
  (w : World) :
  let ks := match keywords with
            | None => Config.DISASTER_KEYWORDS
            | Some ks => ks
            end in
  let df := fst (scrape_all_keywords netloc_of fetch_rss time_window keywords w) in
  let w' := snd (scrape_all_keywords netloc_of fetch_rss time_window keywords w) in
  df = map row_of_article (fetched ks)
  /\ fetched ks = fetched (filter succeeded ks)
  /\ articles_fetched (stats w') = List.length df
  /\ keywords_scraped (stats w')
     = keywords_scraped (stats w) + List.length (filter succeeded ks)
  /\ keywords_failed (stats w')
     = keywords_failed (stats w)
       + List.length (filter (fun k => negb (succeeded k)) ks)
  /\ keywords_scraped (stats w') + keywords_failed (stats w')
     = keywords_scraped (stats w) + keywords_failed (stats w)
       + List.length ks
  /\ articles_after_location_filter (stats w')
     = articles_after_location_filter (stats w)
  /\ articles_after_disaster_filter (stats w')
     = articles_after_disaster_filter (stats w)
  /\ articles_after_dedup (stats w') = articles_after_dedup (stats w)
  /\ articles_with_invalid_dates (stats w')
     = articles_with_invalid_dates (stats w)
  /\ invalid_dates_log w' = invalid_dates_log w
  /\ skipped_articles_log w' = skipped_articles_log w.
Proof.
  intros ks df w'. subst df w'.
  set (r := scrape_loop netloc_of fetch_rss time_window ks [] w).
  assert (Hrun :
    scrape_all_keywords netloc_of fetch_rss time_window keywords w
    = (map row_of_article (fst r),
       mkWorld (set_articles_fetched (List.length (fst r)) (stats (snd r)))
               (invalid_dates_log (snd r)) (skipped_articles_log (snd r))
               (clock (snd r)))).
  { unfold scrape_all_keywords, bind. fold ks. fold r.
    destruct r as [[|a rest] w1]; reflexivity. }
  rewrite Hrun. cbn [fst snd stats invalid_dates_log skipped_articles_log].
  destruct (scrape_loop_spec ks [] w) as (H1 & H2 & H3 & H4).
  cbv zeta in H1, H2, H3, H4. fold r in H1, H2, H3, H4.
  cbn [app] in H1. rewrite H1.
  destruct H4 as (K1 & K2 & K3 & K4 & K5 & K6 & K7 & K8).
  assert (Hlen : List.length (filter succeeded ks)
                 + List.length (filter (fun k => negb (succeeded k)) ks)
                 = List.length ks).
  { clear. induction ks as [|k ks IH]; [reflexivity|].
    cbn [filter]. destruct (succeeded k); cbn; lia. }
  assert (Hsucc : fetched ks = fetched (filter succeeded ks)).
  { clear. induction ks as [|k ks IH]; [reflexivity|].
    cbn [filter fetched flat_map]. fold (fetched ks).
    unfold succeeded at 1.
    destruct (scrape_keyword netloc_of fetch_rss time_window k)
      as [articles success] eqn:E. cbn [fst snd].
    destruct success.
    - cbn [fetched flat_map]. rewrite E. cbn [fst].
      fold (fetched (filter succeeded ks)). now rewrite IH.
    - assert (Hempty : articles = []).
      { unfold scrape_keyword in E.
        destruct (fetch_rss _); [|congruence].
        destruct (parse_feed_entries _ _ _); congruence. }
      rewrite Hempty. exact IH. }
  cbn. rewrite length_map. repeat split; trivial; lia.
Qed.

End WithNetwork.

End FeedFacts.

(* ------------------------------------------------------------------ *)
(** ** The filters on the frame *)

Module FilterFacts.

Import Str StrFacts Scraper Feed Pipeline.

(** [row[name]] for a column outside the fixed ones. *)
Fixpoint get_column (name : string) (columns : list (string * cell))
  : option cell :=
  match columns with
  | [] => None
  | (n, x) :: rest => if String.eqb n name then Some x else get_column name rest
  end.

Lemma get_set_column_same (name : string) (v : cell)
  (columns : list (string * cell)) :
  get_column name (set_column name v columns) = Some v.
Proof.
  induction columns as [|[n x] rest IH]; cbn.
  - now rewrite String.eqb_refl.
  - destruct (String.eqb n name) eqn:E; cbn; now rewrite E.
Qed.

Lemma get_set_column_other (name name' : string) (v : cell)
  (columns : list (string * cell)) :
  name <> name' ->
  get_column name' (set_column name v columns) = get_column name' columns.
Proof.
  intros Hne. induction columns as [|[n x] rest IH]; cbn.
  - apply String.eqb_neq in Hne. now rewrite Hne.
  - destruct (String.eqb n name) eqn:E; cbn.
    + apply String.eqb_eq in E. subst n.
      apply String.eqb_neq in Hne. now rewrite Hne.
    + destruct (String.eqb n name'); [reflexivity | exact IH].
Qed.

Section WithGazetteer.

Variable lokasi_keywords : list string.

Definition passes_location (row : Row) : bool :=
  LocationFilter.is_in_indonesia lokasi_keywords (judul row) (ringkasan row).

Definition passes_disaster (row : Row) : bool :=
  DisasterFilter.is_disaster_event (judul row) (ringkasan row).

(** A row that passed, with the three columns [apply_filters] adds. *)
Definition annotated (row : Row) : Row :=
  set_judul_bersih (Some (TextNormalizer.normalize_title (judul row)))
    (set_other "jenis_bencana"
       (Some (DisasterFilter.get_disaster_type
                (format_cell (judul row)) (format_cell (ringkasan row))))
       (set_other "lokasi_kejadian"
          (Some (LocationFilter.extract_location lokasi_keywords
                   (judul row) (ringkasan row)))
          row)).

Lemma filter_filter {A : Type} (p q : A -> bool) (l : list A) :
  filter q (filter p l) = filter (fun x => (p x && q x)%bool) l.
Proof.
  induction l as [|x l IH]; [reflexivity|]. cbn.
  destruct (p x); cbn; [destruct (q x)|]; now rewrite IH.
Qed.

Lemma filter_length_le {A : Type} (p : A -> bool) (l : list A) :
  List.length (filter p l) <= List.length l.
Proof.
  induction l as [|x l IH]; [reflexivity|]. cbn.
  destruct (p x); cbn; lia.
Qed.

(** What [apply_filters] returns and the state it leaves. *)
Lemma apply_filters_run (df : list Row) (w : World) :
  let located := filter passes_location df in
  let kept := filter passes_disaster located in
  apply_filters lokasi_keywords df w
  = (map annotated kept,
     match df with
     | [] => w
     | _ =>
         let s1 := set_articles_after_location_filter
                     (List.length located) (stats w) in
         let s2 := match located with
                   | [] => s1
                   | _ => set_articles_after_disaster_filter
                            (List.length kept) s1
                   end in
         mkWorld s2 (invalid_dates_log w) (skipped_articles_log w) (clock w)
     end).
Proof.
  intros located kept. subst kept.
  destruct df as [|r0 df0]; [reflexivity|].
  set (df := r0 :: df0) in *.
  unfold apply_filters. change (is_empty df) with false. cbv iota.
  fold passes_location. fold located. cbv zeta.
  unfold bind at 1. cbn [set_stats modify].
  destruct located as [|l0 ls]; [reflexivity|].
  set (located := l0 :: ls) in *.
  change (is_empty located) with false. cbv iota.
  fold passes_disaster.
  unfold bind at 1. cbn [set_stats modify stats invalid_dates_log
                         skipped_articles_log clock].
  destruct (filter passes_disaster located) as [|k0 ks]; [reflexivity|].
  cbn [is_empty ret]. rewrite !map_map. reflexivity.
Qed.

Lemma annotated_fields (row : Row) :
  judul (annotated row) = judul row
  /\ ringkasan (annotated row) = ringkasan row
  /\ link (annotated row) = link row
  /\ tanggal_publikasi (annotated row) = tanggal_publikasi row.
Proof. repeat split. Qed.

(** X6.  [apply_filters] returns, in their order, exactly the rows that
    pass the location filter and the disaster filter, each with its three
    added columns: the extracted location, which is never empty, the
    disaster type, and the normalized title.  Title, summary, link and
    date are left as they were.  For a non-empty frame the location
    counter is the number of rows that pass the location filter; the
    disaster counter is the number of rows returned when some row passes
    the location filter, and is left at its old value when none does.
    The logs are not touched. *)
Theorem apply_filters_spec (df : list Row) (w : World) :
  let out := fst (apply_filters lokasi_keywords df w) in
  let w' := snd (apply_filters lokasi_keywords df w) in
  out = map annotated
          (filter (fun r => (passes_location r && passes_disaster r)%bool) df)
  /\ Forall (fun r =>
              passes_location r = true /\ passes_disaster r = true
              /\ (exists lokasi,
                     get_column "lokasi_kejadian" (other_columns r)
                     = Some (Some lokasi)
                     /\ lokasi <> ""
                     /\ lokasi = LocationFilter.extract_location
                                   lokasi_keywords (judul r) (ringkasan r))
              /\ get_column "jenis_bencana" (other_columns r)
                 = Some (Some (DisasterFilter.get_disaster_type
                                 (format_cell (judul r))
                                 (format_cell (ringkasan r))))
              /\ judul_bersih r
                 = Some (TextNormalizer.normalize_title (judul r))) out
  /\ (df <> [] ->
      articles_after_location_filter (stats w')
      = List.length (filter passes_location df))
  /\ (filter passes_location df <> [] ->
      articles_after_disaster_filter (stats w') = List.length out)
  /\ (filter passes_location df = [] ->
      articles_after_disaster_filter (stats w')
      = articles_after_disaster_filter (stats w))
  /\ List.length out <= List.length (filter passes_location df)
  /\ List.length (filter passes_location df) <= List.length df
  /\ invalid_dates_log w' = invalid_dates_log w
  /\ skipped_articles_log w' = skipped_articles_log w.
Proof.
  intros out w'. subst out w'. rewrite apply_filters_run. cbn [fst snd].
  rewrite filter_filter.
  split; [reflexivity|]. split.
  { apply Forall_forall. intros r' Hin. apply in_map_iff in Hin.
    destruct Hin as (r & <- & Hin). apply filter_In in Hin.
    destruct Hin as [_ Hp]. apply andb_true_iff in Hp. destruct Hp as [Hl Hd].
    split; [exact Hl|]. split; [exact Hd|]. split.
    - eexists. split; [|split; [|reflexivity]].
      + cbn [annotated set_judul_bersih set_other other_columns].
        rewrite get_set_column_other by discriminate.
        apply get_set_column_same.
      + unfold passes_location, LocationFilter.is_in_indonesia in Hl.
        apply negb_true_iff, String.eqb_neq in Hl. exact Hl.
    - split; [|reflexivity].
      cbn [annotated set_judul_bersih set_other other_columns].
      apply get_set_column_same. }
  rewrite <- filter_filter, length_map.
  split.
  { intros H. destruct df; [now elim H|].
    cbv zeta. cbn [stats]. now destruct (filter passes_location _). }
  split.
  { intros H. destruct df; [now elim H|].
    cbv zeta. cbn [stats]. destruct (filter passes_location _); [now elim H|].
    reflexivity. }
  split.
  { intros H. destruct df; [reflexivity|].
    cbv zeta. cbn [stats]. rewrite H. reflexivity. }
  split; [apply filter_length_le|]. split; [apply filter_length_le|].
  split; now destruct df.
Qed.

End WithGazetteer.

End FilterFacts.

(* ------------------------------------------------------------------ *)
(** ** Which disaster events stay without a category *)

Module ClassificationFacts.

Import Str StrFacts Config DisasterFilter DisasterFilterFacts.

(** The positive keywords no category keyword is part of. *)
Definition uncategorised : list string :=
  [ "bencana alam"; "gelombang pasang"; "abrasi pantai"; "keracunan" ].

Definition category_keywords : list string :=
  flat_map snd disaster_categories.

Lemma Substring_trans (a b c : string) :
  Substring a b -> Substring b c -> Substring a c.
Proof.
  intros (p1 & q1 & ->) (p2 & q2 & ->).
  exists (p2 ++ p1), (q1 ++ q2).
  now rewrite !UrlFacts.append_assoc.
Qed.

(** Each positive keyword holds a category keyword or an uncategorised
    one. *)
Lemma keyword_coverage (kw : string) :
  In kw DISASTER_KEYWORDS ->
  (exists ck, In ck category_keywords /\ Substring ck kw)
  \/ (exists u, In u uncategorised /\ Substring u kw).
Proof.
  intros Hin.
  assert (H : forallb (fun kw => (any_in category_keywords kw
                                  || any_in uncategorised kw)%bool)
                      DISASTER_KEYWORDS = true) by (vm_compute; reflexivity).
  rewrite forallb_forall in H. specialize (H kw Hin).
  apply orb_true_iff in H. destruct H as [H | H]; apply any_in_spec in H;
    [left | right]; exact H.
Qed.

Lemma category_names (category : string) (keywords : list string) :
  In (category, keywords) disaster_categories -> category <> "Lainnya".
Proof.
  intros Hin E. subst category.
  assert (H : forallb (fun e => negb (String.eqb (fst e) "Lainnya"))
                      disaster_categories = true) by (vm_compute; reflexivity).
  rewrite forallb_forall in H. specialize (H _ Hin). cbn in H.
  discriminate.
Qed.

(** X7.  A text that passes [is_disaster_event] and gets the type
    "Lainnya" from [get_disaster_type] contains one of "bencana alam",
    "gelombang pasang", "abrasi pantai", "keracunan": every other positive
    keyword brings a category with it. *)
Theorem lainnya_only_uncategorised (judul ringkasan : string) :
  is_disaster_event (Some judul) (Some ringkasan) = true ->
  get_disaster_type judul ringkasan = "Lainnya" ->
  exists u, In u uncategorised /\ Substring u (text_of judul ringkasan).
Proof.
  intros Hd Ht.
  apply is_disaster_event_tests in Hd. destruct Hd as (Hpos & _ & _).
  cbn [str_or_empty] in Hpos. apply any_in_spec in Hpos.
  destruct Hpos as (kw & Hin & Hsub).
  destruct (keyword_coverage kw Hin) as [(ck & Hck & Hs) | (u & Hu & Hs)].
  - exfalso.
    assert (Hhit : Substring ck (text_of judul ringkasan))
      by (eapply Substring_trans; eassumption).
    unfold category_keywords in Hck. apply in_flat_map in Hck.
    destruct Hck as ([category keywords] & Hentry & Hk). cbn in Hk.
    unfold get_disaster_type in Ht.
    destruct (first_category_spec disaster_categories
                (text_of judul ringkasan))
      as [(before & c & k & after & E & _ & _ & Hres) | (Hnone & _)].
    + rewrite Hres in Ht. subst c.
      apply (category_names "Lainnya" k); [|reflexivity].
      rewrite E. apply in_or_app. right. now left.
    + exact (Hnone category keywords ck Hentry Hk Hhit).
  - exists u. split; trivial. eapply Substring_trans; eassumption.
Qed.

Lemma lainnya_only_uncategorised_witness :
  is_disaster_event (Some "Keracunan massal di Bogor") (Some "") = true
  /\ get_disaster_type "Keracunan massal di Bogor" "" = "Lainnya"
  /\ exists u, In u uncategorised
               /\ Substring u (text_of "Keracunan massal di Bogor" "").
Proof.
  split; [reflexivity|]. split; [reflexivity|].
  apply (lainnya_only_uncategorised "Keracunan massal di Bogor" "");
    reflexivity.
Defined.

End ClassificationFacts.

(* ------------------------------------------------------------------ *)
(** ** Normalizing twice, and letter case *)

Module StabilityFacts.

Import Latin1 Str StrFacts TextNormalizer NormalizeTitleFacts UrlFacts.

(** The four facts about a normalized title the statements below rest
    on. *)
Lemma normalize_title_normal (title : string) :
  let t := normalize_title (Some title) in
  forallb_chars result_char t = true
  /\ spaced_singly false t = true
  /\ match head t with Some c => is_space c = false | None => True end
  /\ match last_or None t with Some c => is_space c = false | None => t = "" end.
Proof.
  intros t. unfold normalize_title in t.
  destruct (collapse_from_chars false _ (blank_lower_chars title)) as [Hc Hs].
  fold (collapse_spaces (blank_special (lower title))) in Hc, Hs.
  destruct (lstrip_keeps _ _ Hc Hs) as (Hc1 & Hs1 & Hh1).
  destruct (rstrip_keeps _ _ _ Hc1 Hs1) as (Hc2 & Hs2 & Hl2 & Hh2).
  repeat split; trivial. unfold t, strip. rewrite (Hh2 Hh1). exact Hh1.
Qed.

Lemma result_char_kept (c : ascii) : result_char c = true -> kept_char c = true.
Proof. by_cases_on_ascii c. Qed.

Lemma result_char_space (c : ascii) :
  result_char c = true -> is_space c = Ascii.eqb c " ".
Proof. by_cases_on_ascii c. Qed.

Lemma blank_special_fixed (t : string) :
  forallb_chars result_char t = true -> blank_special t = t.
Proof.
  unfold blank_special. induction t as [|c t IH]; [reflexivity|].
  cbn. intros H. apply andb_true_iff in H. destruct H as [Hc Ht].
  now rewrite (result_char_kept c Hc), IH.
Qed.

Lemma collapse_from_fixed (b : bool) (t : string) :
  forallb_chars result_char t = true -> spaced_singly b t = true ->
  collapse_from b t = t.
Proof.
  revert b; induction t as [|c t IH]; intros b Hc Hs; [reflexivity|].
  cbn [forallb_chars] in Hc. apply andb_true_iff in Hc. destruct Hc as [Hc Ht].
  apply spaced_singly_cons in Hs. destruct Hs as [Hb Hs].
  cbn [collapse_from]. rewrite (result_char_space c Hc).
  destruct (Ascii.eqb c " ") eqn:E.
  - rewrite (Hb eq_refl). apply Ascii.eqb_eq in E. subst c.
    now rewrite (IH true Ht Hs).
  - now rewrite (IH false Ht Hs).
Qed.

Lemma lstrip_fixed (t : string) :
  match head t with Some c => is_space c = false | None => True end ->
  lstrip t = t.
Proof. destruct t as [|c t]; [reflexivity|]. cbn. now intros ->. Qed.

Lemma rstrip_fixed_from (t : string) :
  t <> "" ->
  forall d c0, last_or d t = Some c0 -> is_space c0 = false -> rstrip t = t.
Proof.
  induction t as [|c t IH]; intros Hne d c0 Hl Hc; [now elim Hne|].
  cbn [last_or] in Hl. cbn [rstrip].
  destruct t as [|c' t'].
  - cbn in Hl |- *. injection Hl as ->. now rewrite Hc.
  - assert (Hne' : String c' t' <> "") by discriminate.
    rewrite (IH Hne' (Some c) c0 Hl Hc). reflexivity.
Qed.

Lemma rstrip_fixed (t : string) :
  match last_or None t with Some c => is_space c = false | None => t = "" end ->
  rstrip t = t.
Proof.
  intros Hl. destruct t as [|c t]; [reflexivity|].
  destruct (last_or None (String c t)) as [c0|] eqn:E; [|discriminate].
  assert (Hne : String c t <> "") by discriminate.
  apply (rstrip_fixed_from _ Hne None c0 E Hl).
Qed.

(** X8.  [normalize_title] is idempotent: a normalized title is its own
    normal form, so a key read back from the historical file normalizes to
    itself. *)
Theorem normalize_title_idempotent (title : cell) :
  normalize_title (Some (normalize_title title)) = normalize_title title.
Proof.
  destruct title as [title|]; [|reflexivity].
  destruct (normalize_title_normal title) as (Hc & Hs & Hh & Hl).
  cbv zeta in Hc, Hs, Hh, Hl.
  set (t := normalize_title (Some title)) in *.
  unfold normalize_title at 1.
  rewrite (forallb_chars_lower t Hc), (blank_special_fixed t Hc).
  unfold collapse_spaces, strip.
  rewrite (collapse_from_fixed false t Hc Hs), (lstrip_fixed t Hh).
  now apply rstrip_fixed.
Qed.

Definition lower_cell (v : cell) : cell :=
  match v with
  | Some s => Some (lower s)
  | None => None
  end.

Lemma text_lower_cells (judul ringkasan : cell) :
  lower (str_or_empty (lower_cell judul) ++ " "
         ++ str_or_empty (lower_cell ringkasan))
  = lower (str_or_empty judul ++ " " ++ str_or_empty ringkasan).
Proof.
  rewrite !lower_append.
  destruct judul, ringkasan; cbn [lower_cell str_or_empty];
    now rewrite ?lower_idempotent.
Qed.

(** X9.  Letter case never matters: with title and summary lower-cased
    beforehand, [extract_location], [is_in_indonesia],
    [is_disaster_event], [get_disaster_type] and [normalize_title] give
    the answers they give for the original text, for every gazetteer. *)
Theorem filters_ignore_case (lokasi_keywords : list string)
  (judul ringkasan : cell) (j r : string) :
  LocationFilter.extract_location lokasi_keywords
    (lower_cell judul) (lower_cell ringkasan)
  = LocationFilter.extract_location lokasi_keywords judul ringkasan
  /\ LocationFilter.is_in_indonesia lokasi_keywords
       (lower_cell judul) (lower_cell ringkasan)
     = LocationFilter.is_in_indonesia lokasi_keywords judul ringkasan
  /\ DisasterFilter.is_disaster_event (lower_cell judul) (lower_cell ringkasan)
     = DisasterFilter.is_disaster_event judul ringkasan
  /\ DisasterFilter.get_disaster_type (lower j) (lower r)
     = DisasterFilter.get_disaster_type j r
  /\ normalize_title (lower_cell judul) = normalize_title judul.
Proof.
  assert (E := text_lower_cells judul ringkasan).
  split; [unfold LocationFilter.extract_location; now rewrite E|].
  split; [unfold LocationFilter.is_in_indonesia, LocationFilter.extract_location;
          now rewrite E|].
  split; [unfold DisasterFilter.is_disaster_event, DisasterFilter.text_of;
          now rewrite E|].
  split.
  - unfold DisasterFilter.get_disaster_type, DisasterFilter.text_of.
    pose proof (text_lower_cells (Some j) (Some r)) as E2.
    cbn [lower_cell str_or_empty] in E2. now rewrite E2.
  - destruct judul as [t|]; [|reflexivity].
    unfold normalize_title, lower_cell. now rewrite lower_idempotent.
Qed.

End StabilityFacts.

(* ------------------------------------------------------------------ *)
(** ** The gazetteer: the entry "indonesia" and entries of equal length *)

Module GazetteerFacts.

Import Str Re StrFacts ReFacts LocationFilter LocationFilterFacts.

Definition not_indonesia (e : string) : bool := negb (String.eqb e "indonesia").

Lemma insert_by_len_front (x : string) (l : list string) :
  Forall (len_ge x) l -> insert_by_len x l = x :: l.
Proof.
  destruct l as [|y l]; [reflexivity|]. intros H. inversion H; subst.
  cbn [insert_by_len]. unfold len_ge in *.
  destruct (Nat.ltb_spec (String.length x) (String.length y)); [lia|reflexivity].
Qed.

(** On a sorted list, filtering and inserting commute. *)
Lemma filter_insert_by_len (p : string -> bool) (x : string) (l : list string) :
  StronglySorted len_ge l ->
  filter p (insert_by_len x l)
  = if p x then insert_by_len x (filter p l) else filter p l.
Proof.
  induction 1 as [|y l Hs IH Hall]; cbn [insert_by_len filter].
  - now destruct (p x).
  - destruct (Nat.ltb_spec (String.length x) (String.length y)) as [Hlt|Hge].
    + cbn [filter]. rewrite IH.
      destruct (p x), (p y); cbn [insert_by_len]; trivial.
      apply Nat.ltb_lt in Hlt. now rewrite Hlt.
    + cbn [filter]. destruct (p x); [|reflexivity].
      symmetry. apply insert_by_len_front.
      assert (Hx : Forall (len_ge x) (y :: l)).
      { constructor; [exact Hge|].
        eapply Forall_impl; [|exact Hall]. unfold len_ge. intros; lia. }
      apply Forall_forall. intros z Hz.
      rewrite Forall_forall in Hx. apply Hx.
      change (In z (filter p (y :: l))) in Hz.
      now apply filter_In in Hz.
Qed.

(** The sort is stable: it commutes with every filter. *)
Lemma sorted_by_len_desc_filter (p : string -> bool) (l : list string) :
  sorted_by_len_desc (filter p l) = filter p (sorted_by_len_desc l).
Proof.
  induction l as [|x l IH]; [reflexivity|].
  cbn [filter sorted_by_len_desc].
  rewrite filter_insert_by_len by apply sorted_by_len_desc_sorted.
  destruct (p x); [cbn [sorted_by_len_desc]; now rewrite IH | exact IH].
Qed.

Lemma sorted_by_len_desc_same_length (k : nat) (l : list string) :
  Forall (fun z => String.length z = k) l -> sorted_by_len_desc l = l.
Proof.
  induction 1 as [|x l Hx Hall IH]; [reflexivity|].
  cbn [sorted_by_len_desc]. rewrite IH. apply insert_by_len_front.
  eapply Forall_impl; [|exact Hall]. unfold len_ge. intros; lia.
Qed.

Lemma filter_same_length (k : nat) (l : list string) :
  filter (fun z => Nat.eqb (String.length z) k) (sorted_by_len_desc l)
  = filter (fun z => Nat.eqb (String.length z) k) l.
Proof.
  rewrite <- sorted_by_len_desc_filter.
  apply (sorted_by_len_desc_same_length k).
  apply Forall_forall. intros z Hz. apply filter_In in Hz.
  now apply Nat.eqb_eq.
Qed.

Lemma scan_locations_filter (l : list string) (text : string) :
  scan_locations (filter not_indonesia l) text = scan_locations l text.
Proof.
  induction l as [|x l IH]; [reflexivity|].
  cbn [filter scan_locations]. unfold not_indonesia at 1.
  destruct (String.eqb x "indonesia") eqn:E; cbn [negb]; [exact IH|].
  cbn [scan_locations]. rewrite E, IH. reflexivity.
Qed.

(** X10.  The gazetteer entry "indonesia" never plays a part: with every
    such entry taken out of the gazetteer, [extract_location] and
    [is_in_indonesia] answer as before. *)
Theorem indonesia_entry_inert (lokasi_keywords : list string)
  (judul ringkasan : cell) :
  extract_location (filter not_indonesia lokasi_keywords) judul ringkasan
  = extract_location lokasi_keywords judul ringkasan
  /\ is_in_indonesia (filter not_indonesia lokasi_keywords) judul ringkasan
     = is_in_indonesia lokasi_keywords judul ringkasan.
Proof.
  assert (E : extract_location (filter not_indonesia lokasi_keywords)
                judul ringkasan
              = extract_location lokasi_keywords judul ringkasan).
  { unfold extract_location.
    now rewrite sorted_by_len_desc_filter, scan_locations_filter. }
  split; [exact E|]. unfold is_in_indonesia. now rewrite E.
Qed.

(** [e] is a candidate: an entry other than "indonesia" that matches the
    text as a whole word. *)
Definition candidate (text e : string) : bool :=
  (not_indonesia e && search_word e text)%bool.

Lemma passed_over_candidate (text e : string) :
  passed_over text e <-> candidate text e = false.
Proof.
  unfold passed_over, candidate, not_indonesia.
  rewrite <- search_word_spec.
  destruct (String.eqb_spec e "indonesia") as [->|Hne]; cbn.
  - split; [reflexivity | now left].
  - destruct (search_word e text); split.
    + intros [H | H]; [contradiction | now elim H].
    + discriminate.
    + reflexivity.
    + intros _. right. discriminate.
Qed.

Lemma find_filter {A : Type} (p q : A -> bool) (l : list A) :
  find q (filter p l) = find (fun x => (p x && q x)%bool) l.
Proof.
  induction l as [|x l IH]; [reflexivity|]. cbn.
  destruct (p x); cbn; [destruct (q x); trivial | exact IH].
Qed.

Lemma find_first {A : Type} (p : A -> bool) (l : list A) (e : A) :
  find p l = Some e ->
  exists l1 l2, l = (l1 ++ e :: l2)%list /\ p e = true
                /\ Forall (fun x => p x = false) l1.
Proof.
  induction l as [|x l IH]; [discriminate|]. cbn.
  destruct (p x) eqn:E.
  - intros [= ->]. exists [], l. repeat split; trivial.
  - intros H. destruct (IH H) as (l1 & l2 & -> & He & Hl1).
    exists (x :: l1), l2. repeat split; trivial. now constructor.
Qed.

Lemma find_app_first {A : Type} (p : A -> bool) (l1 l2 : list A) (e : A) :
  Forall (fun x => p x = false) l1 -> p e = true ->
  find p (l1 ++ e :: l2)%list = Some e.
Proof.
  induction 1 as [|x l1 Hx Hall IH]; intros He; cbn.
  - now rewrite He.
  - rewrite Hx. now apply IH.
Qed.

(** X11.  When the text does not match "di indonesia", the entry
    [extract_location] returns (title-cased) is found in the gazetteer as
    given: it is a candidate, no candidate is longer, and no candidate
    listed before it is as long; so among the longest candidates the one
    listed first wins.  When there is no candidate the answer is the
    empty string. *)
Theorem extract_location_tie_break (lokasi_keywords : list string)
  (judul ringkasan : cell) :
  let text := text_of judul ringkasan in
  search_di_indonesia text = false ->
  (exists l1 e l2,
      lokasi_keywords = (l1 ++ e :: l2)%list
      /\ candidate text e = true
      /\ (forall e', In e' l1 -> candidate text e' = true ->
                     String.length e' < String.length e)
      /\ (forall e', In e' l2 -> candidate text e' = true ->
                     String.length e' <= String.length e)
      /\ extract_location lokasi_keywords judul ringkasan = title e)
  \/ (Forall (fun e => candidate text e = false) lokasi_keywords
      /\ extract_location lokasi_keywords judul ringkasan = "").
Proof.
  intros text Hphrase.
  assert (Hex : extract_location lokasi_keywords judul ringkasan
                = scan_locations (sorted_by_len_desc lokasi_keywords) text).
  { unfold extract_location. fold (text_of judul ringkasan). fold text.
    now rewrite Hphrase. }
  rewrite Hex.
  destruct (scan_locations_spec (sorted_by_len_desc lokasi_keywords) text)
    as [(before & e & after & E & Hne & Hm & Hb & Hres) | (Hall & Hres)].
  - left.
    assert (Hcand : candidate text e = true).
    { unfold candidate, not_indonesia.
      apply String.eqb_neq in Hne. rewrite Hne.
      apply search_word_spec in Hm. now rewrite Hm. }
    assert (Hsort := sorted_by_len_desc_sorted lokasi_keywords).
    assert (Hperm := sorted_by_len_desc_perm lokasi_keywords).
    assert (Hlong : forall e', In e' lokasi_keywords ->
                      candidate text e' = true ->
                      String.length e' <= String.length e).
    { intros e' Hin Hc.
      apply (Permutation_in _ Hperm) in Hin. rewrite E in Hin, Hsort.
      apply in_app_or in Hin. destruct Hin as [Hin | [<- | Hin]].
      - rewrite Forall_forall in Hb. specialize (Hb e' Hin).
        apply passed_over_candidate in Hb. congruence.
      - lia.
      - apply sorted_split_after in Hsort. rewrite Forall_forall in Hsort.
        apply (Hsort e' Hin). }
    set (same := fun z => Nat.eqb (String.length z) (String.length e)).
    assert (Hfind : find (fun x => (same x && candidate text x)%bool)
                         lokasi_keywords = Some e).
    { rewrite <- find_filter. unfold same.
      rewrite <- filter_same_length, find_filter, E.
      apply find_app_first.
      - eapply Forall_impl; [|exact Hb]. intros x Hx.
        apply passed_over_candidate in Hx. rewrite Hx. apply andb_false_r.
      - now rewrite Nat.eqb_refl, Hcand. }
    apply find_first in Hfind.
    destruct Hfind as (l1 & l2 & El & _ & Hl1).
    exists l1, e, l2. split; [exact El|]. split; [exact Hcand|].
    split; [|split; [|exact Hres]].
    + intros e' Hin Hc. rewrite Forall_forall in Hl1.
      specialize (Hl1 e' Hin). cbn in Hl1. rewrite Hc, andb_true_r in Hl1.
      unfold same in Hl1. apply Nat.eqb_neq in Hl1.
      assert (String.length e' <= String.length e).
      { apply Hlong; trivial. rewrite El. apply in_or_app. now left. }
      lia.
    + intros e' Hin Hc. apply Hlong; trivial.
      rewrite El. apply in_or_app. right. now right.
  - right. split; [|exact Hres].
    apply (Permutation_Forall (Permutation_sym
                                 (sorted_by_len_desc_perm lokasi_keywords))).
    eapply Forall_impl; [|exact Hall]. intros x Hx.
    now apply passed_over_candidate.
Qed.

Lemma extract_location_tie_break_witness :
  search_di_indonesia (text_of (Some "Banjir di Solo dan Bali") None) = false
  /\ extract_location ["bali"; "solo"] (Some "Banjir di Solo dan Bali") None
     = "Bali".
Proof.
  split; [reflexivity|].
  destruct (extract_location_tie_break ["bali"; "solo"]
              (Some "Banjir di Solo dan Bali") None eq_refl)
    as [(l1 & e & l2 & E & Hc & H1 & H2 & Hres) | (Hall & _)].
  - rewrite Hres.
    destruct l1 as [|x l1]; injection E as <- E.
    + reflexivity.
    + destruct l1 as [|y l1]; injection E as <- E.
      * specialize (H1 "bali" (or_introl eq_refl) eq_refl). cbn in H1. lia.
      * now destruct l1.
  - inversion Hall as [|x l Hx Hl]; subst. discriminate.
Defined.

End GazetteerFacts.

(* ------------------------------------------------------------------ *)
(** ** Rows that came through a validation *)

Module ValidationFacts.

Import Scraper FrameFacts ScraperFacts.

(** [r] is a row as a validation with the parser [to_datetime] returns
    it. *)
Definition validated (to_datetime : cell -> option Z) (r : Row) : Prop :=
  exists r0 t, to_datetime (tanggal_publikasi r0) = Some t /\ r = stamped r0 t.

Lemma valid_rows_validated (to_datetime : cell -> option Z) (df : list Row) :
  Forall (validated to_datetime) (valid_rows to_datetime df).
Proof.
  apply Forall_forall. intros r Hin. apply valid_rows_In in Hin.
  destruct Hin as (r0 & t & _ & E & ->). now exists r0, t.
Qed.

(** A second parser that reads the date of a validated row as the first
    did validates it too. *)
Lemma validated_agree (first second : cell -> option Z) (r : Row) :
  validated first r ->
  second (tanggal_publikasi r) = first (tanggal_publikasi r) ->
  validated second r.
Proof.
  intros (r0 & t & E & ->) H. exists r0, t. split; [|reflexivity].
  cbn [stamped set_datetime_wib set_datetime_utc tanggal_publikasi] in H.
  now rewrite H.
Qed.

Lemma valid_rows_fixed (to_datetime : cell -> option Z) (df : list Row) :
  Forall (validated to_datetime) df -> valid_rows to_datetime df = df.
Proof.
  induction 1 as [|r df (r0 & t & E & ->) Hall IH]; [reflexivity|].
  cbn [valid_rows flat_map]. fold (valid_rows to_datetime df). rewrite IH.
  cbn [stamped set_datetime_wib set_datetime_utc tanggal_publikasi].
  rewrite E. reflexivity.
Qed.

Lemma fails_none_validated (to_datetime : cell -> option Z) (df : list Row) :
  Forall (validated to_datetime) df ->
  filter (fails_to_parse to_datetime) df = [].
Proof.
  induction 1 as [|r df (r0 & t & E & ->) Hall IH]; [reflexivity|].
  cbn [filter]. unfold fails_to_parse at 1.
  cbn [stamped set_datetime_wib set_datetime_utc tanggal_publikasi].
  rewrite E. exact IH.
Qed.

Lemma valid_rows_app (to_datetime : cell -> option Z) (a b : list Row) :
  valid_rows to_datetime (a ++ b)%list
  = (valid_rows to_datetime a ++ valid_rows to_datetime b)%list.
Proof. apply flat_map_app. Qed.

Lemma drop_duplicates_nil (df : list Row) :
  drop_duplicates df = [] -> df = [].
Proof. destruct df as [|r df]; [reflexivity | discriminate]. Qed.

End ValidationFacts.

(* ------------------------------------------------------------------ *)
(** ** The outcomes of a run *)

Module RunFacts.

Import Scraper FrameFacts ScraperFacts Feed FeedFacts Pipeline FilterFacts
       ValidationFacts.

Section WithEnvironment.

Variable lokasi_keywords : list string.
Variable to_datetime : list cell -> cell -> option Z.
Variable netloc_of : string -> option string.
Variable fetch_rss : string -> option (list Entry).
Variable time_window : string.

Definition keywords_of (keywords : option (list string)) : list string :=
  match keywords with
  | None => Config.DISASTER_KEYWORDS
  | Some ks => ks
  end.

(** The frames of the stages before the merge. *)
Definition raw_frame (keywords : option (list string)) : list Row :=
  map row_of_article
      (fetched netloc_of fetch_rss time_window (keywords_of keywords)).

Definition filtered_frame (keywords : option (list string)) : list Row :=
  map (annotated lokasi_keywords)
      (filter (fun r => (passes_location lokasi_keywords r
                         && passes_disaster r)%bool)
              (raw_frame keywords)).

(** The parser of the first validation: that of the dates of the filtered
    frame. *)
Definition first_parser (keywords : option (list string)) : cell -> option Z :=
  to_datetime (map tanggal_publikasi (filtered_frame keywords)).

Definition processed_frame (keywords : option (list string)) : list Row :=
  valid_rows (first_parser keywords) (filtered_frame keywords).

(** The rows the merge validates, historical rows first, and the parser
    of their dates. *)
Definition merged_rows (existing : option Table)
  (keywords : option (list string)) : list Row :=
  (historical_rows existing ++ processed_frame keywords)%list.

Definition merge_parser (existing : option Table)
  (keywords : option (list string)) : cell -> option Z :=
  to_datetime (map tanggal_publikasi (merged_rows existing keywords)).

Lemma scrape_all_keywords_fst (keywords : option (list string)) (w : World) :
  let r := scrape_all_keywords netloc_of fetch_rss time_window keywords w in
  fst r = raw_frame keywords
  /\ clock (snd r) = clock w
  /\ articles_after_dedup (stats (snd r)) = articles_after_dedup (stats w).
Proof.
  cbv zeta.
  unfold scrape_all_keywords, bind, raw_frame. fold (keywords_of keywords).
  destruct (scrape_loop_spec netloc_of fetch_rss time_window
              (keywords_of keywords) [] w) as (H1 & _ & _ & H4).
  cbv zeta in H1, H4. destruct H4 as (_ & _ & _ & Hd & _ & _ & _ & Hc).
  destruct (scrape_loop netloc_of fetch_rss time_window
              (keywords_of keywords) [] w) as [all_articles w1].
  cbn [fst snd app] in H1, Hc, Hd. subst all_articles.
  destruct (fetched _ _ _ _) as [|a rest]; cbn; now repeat split.
Qed.

Lemma apply_filters_fst (df : list Row) (w : World) :
  let r := apply_filters lokasi_keywords df w in
  fst r
  = map (annotated lokasi_keywords)
        (filter (fun r => (passes_location lokasi_keywords r
                           && passes_disaster r)%bool) df)
  /\ clock (snd r) = clock w
  /\ articles_after_dedup (stats (snd r)) = articles_after_dedup (stats w).
Proof.
  cbv zeta. rewrite apply_filters_run. cbn [fst snd]. rewrite filter_filter.
  split; [reflexivity|].
  destruct df as [|r0 df0]; [now split|].
  destruct (filter (passes_location lokasi_keywords) (r0 :: df0));
    now split.
Qed.

Lemma process_datetime_fst (parse : cell -> option Z) (df : list Row)
  (w : World) :
  let r := process_datetime parse df w in
  fst r = valid_rows parse df
  /\ clock (snd r) = clock w
  /\ articles_after_dedup (stats (snd r)) = articles_after_dedup (stats w).
Proof.
  cbv zeta. rewrite process_datetime_run. cbn [fst snd].
  split; [reflexivity | now destruct df].
Qed.

Lemma run_unfold (existing : option Table) (keywords : option (list string))
  (files : Files) (w : World) :
  run lokasi_keywords to_datetime netloc_of fetch_rss time_window
      existing keywords files w
  = let r1 := scrape_all_keywords netloc_of fetch_rss time_window keywords w in
    if is_empty (fst r1) then (NO_DATA, files, snd r1)
    else
      let r2 := apply_filters lokasi_keywords (fst r1) (snd r1) in
      if is_empty (fst r2) then (NO_ARTICLES_AFTER_FILTER, files, snd r2)
      else
        let r3 := process_datetime
                    (to_datetime (map tanggal_publikasi (fst r2)))
                    (fst r2) (snd r2) in
        if is_empty (fst r3) then (NO_VALID_DATES, files, snd r3)
        else
          let r4 := merge_with_existing to_datetime existing
                      (mkFrame true (fst r3)) (snd r3) in
          match fst r4 with
          | Raised e => (ERROR (str_of_exception e), files, snd r4)
          | Returned df_final =>
              (SUCCESS (articles_after_dedup (stats (snd r4)))
                       (List.length df_final) (stats (snd r4)) df_final,
               mkFiles (Some df_final)
                       (Some (mkMetadata (clock (snd r4)) time_window
                                         (stats (snd r4)) "SUCCESS")),
               snd r4)
          end.
Proof.
  unfold run, bind. cbv zeta.
  destruct (scrape_all_keywords _ _ _ _ _) as [df_raw w1]. cbn [fst snd].
  destruct (is_empty df_raw); [reflexivity|].
  destruct (apply_filters _ _ _) as [df_filtered w2]. cbn [fst snd].
  destruct (is_empty df_filtered); [reflexivity|].
  destruct (process_datetime _ _ _) as [df_processed w3]. cbn [fst snd].
  destruct (is_empty df_processed); [reflexivity|].
  destruct (merge_with_existing _ _ _ _) as [[df_final|e] w4]; reflexivity.
Qed.

Lemma is_empty_false {A : Type} (l : list A) : is_empty l = false <-> l <> [].
Proof. destruct l; cbn; split; congruence. Qed.

Lemma is_empty_true {A : Type} (l : list A) : is_empty l = true <-> l = [].
Proof. destruct l; cbn; split; congruence. Qed.

(** X14.  The outcome of [run] and what it writes, for runs in which the
    file system and the calls into pandas other than the two column
    look-ups of the merge raise no exception.  NO_DATA: no keyword gave
    an article.  NO_ARTICLES_AFTER_FILTER: articles were fetched and none
    passes both filters.  NO_VALID_DATES: some pass and none has a date
    that parses in the column of the filtered frame.  ERROR: some row came
    through and the historical file has neither the normalized-title nor
    the title column; the error text is that of the [KeyError].  In these
    four cases neither file is written.  SUCCESS: the CSV file is
    overwritten with the merged frame and the metadata file records the
    status, the time window and the counters.  The merged frame has no two
    rows with one (link, normalized title) pair, is sorted latest first,
    and its keys are those of the historical and new rows whose date
    parses in the column of the concatenation; the invalid-date counter is
    the number of historical and new rows whose date does not parse
    there.  The reported total is the number of rows of the merged frame,
    and so is the reported number of new articles unless the merged frame
    is empty, when it is the after-dedup counter the run started with.  A
    new row that came through the first validation can fail the second.
    When the second parser reads the dates of the new rows as the first
    did, the merged frame is not empty, holds the key of every new row,
    and the invalid-date counter is the number of historical rows whose
    date does not parse. *)
Theorem run_outcomes (existing : option Table)
  (keywords : option (list string)) (files : Files) (w : World) :
  let res := run lokasi_keywords to_datetime netloc_of fetch_rss time_window
                 existing keywords files w in
  let files' := snd (fst res) in
  let all := merged_rows existing keywords in
  let parse := merge_parser existing keywords in
  match fst (fst res) with
  | NO_DATA => raw_frame keywords = [] /\ files' = files
  | NO_ARTICLES_AFTER_FILTER =>
      raw_frame keywords <> [] /\ filtered_frame keywords = []
      /\ files' = files
  | NO_VALID_DATES =>
      filtered_frame keywords <> [] /\ processed_frame keywords = []
      /\ files' = files
  | ERROR error =>
      processed_frame keywords <> []
      /\ no_title_column existing = true
      /\ error = "'judul'"
      /\ files' = files
  | SUCCESS articles_new articles_total st df =>
      processed_frame keywords <> []
      /\ no_title_column existing = false
      /\ csv_output files' = Some df
      /\ metadata files'
         = Some (mkMetadata (clock w) time_window st "SUCCESS")
      /\ st = stats (snd res)
      /\ articles_new = articles_after_dedup st
      /\ articles_total = List.length df
      /\ (df <> [] -> articles_new = articles_total)
      /\ (df = [] -> articles_new = articles_after_dedup (stats w))
      /\ NoDup (map dedup_key df)
      /\ StronglySorted not_earlier df
      /\ Forall (fun r => datetime_utc r <> None) df
      /\ (forall k, In k (map dedup_key df)
                    <-> In k (map dedup_key (valid_rows parse all)))
      /\ articles_with_invalid_dates st
         = List.length (filter (fails_to_parse parse) all)
      /\ ((forall r, In r (processed_frame keywords) ->
             parse (tanggal_publikasi r)
             = first_parser keywords (tanggal_publikasi r)) ->
          df <> []
          /\ (forall r, In r (processed_frame keywords) ->
                        In (dedup_key r) (map dedup_key df))
          /\ articles_with_invalid_dates st
             = List.length (filter (fails_to_parse parse)
                                   (historical_rows existing)))
  end.
Proof.
  intros res files' all parse. subst files' res. rewrite run_unfold. cbv zeta.
  destruct (scrape_all_keywords_fst keywords w) as (E1 & C1 & D1).
  set (r1 := scrape_all_keywords netloc_of fetch_rss time_window keywords w)
    in *.
  rewrite E1.
  destruct (is_empty (raw_frame keywords)) eqn:Eraw.
  { cbn [fst snd]. split; [now apply is_empty_true | reflexivity]. }
  apply is_empty_false in Eraw.
  destruct (apply_filters_fst (raw_frame keywords) (snd r1)) as (E2 & C2 & D2).
  set (r2 := apply_filters lokasi_keywords (raw_frame keywords) (snd r1)) in *.
  rewrite E2. fold (filtered_frame keywords). fold (first_parser keywords).
  destruct (is_empty (filtered_frame keywords)) eqn:Efil.
  { cbn [fst snd]. split; [exact Eraw|].
    split; [now apply is_empty_true | reflexivity]. }
  apply is_empty_false in Efil.
  destruct (process_datetime_fst (first_parser keywords)
              (filtered_frame keywords) (snd r2)) as (E3 & C3 & D3).
  set (r3 := process_datetime (first_parser keywords)
               (filtered_frame keywords) (snd r2)) in *.
  rewrite E3. fold (processed_frame keywords).
  destruct (is_empty (processed_frame keywords)) eqn:Epro.
  { cbn [fst snd]. split; [exact Efil|].
    split; [now apply is_empty_true | reflexivity]. }
  apply is_empty_false in Epro.
  rewrite merge_with_existing_run. cbn [frame_rows].
  change (historical_rows existing ++ processed_frame keywords)%list with all.
  change (to_datetime (map tanggal_publikasi all)) with parse.
  destruct (no_title_column existing) eqn:Etitle.
  { cbn [fst snd str_of_exception]. repeat split; trivial. }
  set (new := processed_frame keywords) in *.
  assert (Ecol : some_datetime_wib_column existing (mkFrame true new) = true).
  { destruct existing as [df_old|]; cbn; [apply orb_true_r | reflexivity]. }
  rewrite Ecol. cbn [orb fst snd csv_output metadata].
  destruct (merge_world parse all (snd r3))
    as (_ & _ & Wclock & Winv & Wdd & Wdd0 & _).
  set (valid := valid_rows parse all) in *.
  set (w4 := snd (deduplicate valid (snd (process_datetime parse all (snd r3)))))
    in *.
  set (out := sort_values_desc (drop_duplicates valid)).
  assert (Hperm : Permutation (drop_duplicates valid) out)
    by apply sort_values_desc_perm.
  assert (Hall : all <> []).
  { unfold all, merged_rows. intros H. apply app_eq_nil in H. now apply Epro. }
  assert (Hvalid_out : valid <> [] -> out <> []).
  { intros Hne Hout. apply Hne, drop_duplicates_nil.
    apply Permutation_sym in Hperm. rewrite Hout in Hperm.
    now apply Permutation_nil in Hperm. }
  assert (Hkeys : forall k, In k (map dedup_key out)
                            <-> In k (map dedup_key valid)).
  { intros k. split; intros H.
    - apply drop_duplicates_keys.
      eapply Permutation_in; [apply Permutation_sym, Permutation_map, Hperm|].
      exact H.
    - eapply Permutation_in; [apply Permutation_map, Hperm|].
      now apply drop_duplicates_keys. }
  split; [exact Epro|]. split; [reflexivity|]. split; [reflexivity|].
  split; [now rewrite Wclock, C3, C2, C1|]. split; [reflexivity|].
  split; [reflexivity|]. split; [reflexivity|].
  split.
  { intros Hne. rewrite Wdd; [apply (Permutation_length Hperm)|].
    intros Hv. apply Hne. unfold out. now rewrite Hv. }
  split.
  { intros Hout. rewrite Wdd0; [now rewrite D3, D2, D1|].
    apply drop_duplicates_nil. rewrite Hout in Hperm.
    now apply Permutation_sym, Permutation_nil in Hperm. }
  split.
  { apply (Permutation_NoDup (Permutation_map dedup_key Hperm)).
    apply drop_duplicates_from_NoDup. }
  split; [apply sort_values_desc_sorted|].
  split.
  { apply (Permutation_Forall Hperm). apply Forall_forall.
    intros r Hin. apply drop_duplicates_from_In in Hin.
    destruct Hin as (_ & before & after & E & _).
    assert (Hin : In r valid) by (rewrite E; apply in_or_app; right; now left).
    apply valid_rows_In in Hin. destruct Hin as (r0 & t & _ & _ & ->).
    discriminate. }
  split; [exact Hkeys|].
  split; [now apply Winv|].
  intros Hagree.
  assert (Hnew : Forall (validated parse) new).
  { apply Forall_forall. intros r Hin.
    apply (validated_agree (first_parser keywords)); [|now apply Hagree].
    assert (Hv := valid_rows_validated (first_parser keywords)
                    (filtered_frame keywords)).
    rewrite Forall_forall in Hv. now apply Hv. }
  assert (Hvalid : valid = (valid_rows parse (historical_rows existing)
                            ++ new)%list).
  { unfold valid, all, merged_rows. fold new. rewrite valid_rows_app.
    now rewrite (valid_rows_fixed parse new Hnew). }
  split.
  { apply Hvalid_out. rewrite Hvalid. intros H. apply app_eq_nil in H.
    now apply Epro. }
  split.
  { intros r Hin. apply Hkeys. apply in_map. rewrite Hvalid.
    apply in_or_app. now right. }
  rewrite (Winv Hall). unfold all, merged_rows. fold new. rewrite filter_app.
  rewrite (fails_none_validated parse new Hnew), app_nil_r.
  reflexivity.
Qed.

End WithEnvironment.

(** A run on a feed of three entries for the keyword "banjir": one report
    of a flood in Jakarta, one football headline, one report whose date
    does not parse. *)
Definition feed_example (url : string) : option (list Entry) :=
  if String.eqb url
       "https://news.google.com/rss/search?q=banjir+when:1d&hl=id&gl=ID&ceid=ID:id"
  then Some
         [ mkEntry (Some "Banjir bandang di Jakarta")
                   (Some "https://WWW.Contoh.id/banjir")
                   (Some "Ratusan rumah terendam")
                   (Some (mkTime 2024 5 1 10 0 0)) None (Some "Contoh");
           mkEntry (Some "Banjir gol di Liga Inggris")
                   (Some "https://bola.contoh.id/liga") None
                   (Some (mkTime 2024 5 1 10 0 0)) None None;
           mkEntry (Some "Longsor di Jawa") (Some "https://contoh.id/longsor")
                   None None (Some "kemarin sore") None ]
  else None.

Definition netloc_example (url : string) : option string :=
  if String.eqb url "https://WWW.Contoh.id/banjir" then Some "WWW.Contoh.id"
  else Some "contoh.id".

(** Every column read alike, with no historical file. *)
Example run_example :
  let res := run LocationFilter.fallback_lokasi_keywords
                 (fun _ => to_datetime_example)
                 netloc_example feed_example "1d"
                 None (Some ["gempa"; "banjir"]) (mkFiles None None)
                 world_example in
  match fst (fst res) with
  | SUCCESS articles_new articles_total st df =>
      articles_new = 1 /\ articles_total = 1
      /\ map judul df = [Some "Banjir bandang di Jakarta"]
      /\ map judul_bersih df = [Some "banjir bandang di jakarta"]
      /\ map other_columns df
         = [[("sumber", Some "Contoh"); ("kata_kunci", Some "banjir");
             ("domain", Some "contoh.id"); ("lokasi_kejadian", Some "Jakarta");
             ("jenis_bencana", Some "Banjir")]]
      /\ keywords_scraped st = 1 /\ keywords_failed st = 1
      /\ articles_fetched st = 3
      /\ articles_after_location_filter st = 2
      /\ articles_after_disaster_filter st = 2
      /\ articles_with_invalid_dates st = 0
      /\ List.length (invalid_dates_log (snd res)) = 1
  | _ => False
  end
  /\ fst (fst (run LocationFilter.fallback_lokasi_keywords
                   (fun _ => to_datetime_example)
                   netloc_example feed_example "7d" None None
                   (mkFiles None None) world_example))
     = NO_DATA.
Proof. vm_compute. repeat split. Qed.

(** A parser that reads a column in the format of its first cell, as
    pandas does when it can tell the format: in a column that starts with
    a date without a time, a cell with a time does not parse. *)
Definition to_datetime_by_first_cell (column : list cell) (c : cell)
  : option Z :=
  match column with
  | Some first :: _ =>
      if Nat.eqb (String.length first) 10
      then match c with
           | Some s =>
               if String.eqb s "2024-04-30" then Some 1714435200%Z else None
           | None => None
           end
      else to_datetime_example c
  | _ => to_datetime_example c
  end.

(** A historical row with a date without a time. *)
Definition row_lama : Row :=
  mkRow (Some "Gempa di Bali") (Some "https://contoh.id/gempa-lama")
        None (Some "2024-04-30")
        (Some "gempa di bali") None None [].

(** The same feed with a historical file whose first date has no time:
    the report of the flood comes through the first validation, fails the
    validation inside the merge, is counted there as an invalid date and
    logged, and is missing from the file the run writes. *)
Example run_example_mixed_formats :
  let res := run LocationFilter.fallback_lokasi_keywords
                 to_datetime_by_first_cell
                 netloc_example feed_example "1d"
                 (Some (mkTable true true true [row_lama])) (Some ["banjir"])
                 (mkFiles None None) world_example in
  match fst (fst res) with
  | SUCCESS articles_new articles_total st df =>
      articles_new = 1 /\ articles_total = 1
      /\ map judul df = [Some "Gempa di Bali"]
      /\ csv_output (snd (fst res)) = Some df
      /\ articles_after_disaster_filter st = 2
      /\ articles_with_invalid_dates st = 1
      /\ map (fun l => judul (skipped_row l)) (invalid_dates_log (snd res))
         = [Some "Longsor di Jawa"; Some "Banjir bandang di Jakarta"]
  | _ => False
  end.
Proof. vm_compute. repeat split. Qed.

(** The same feed with a historical file that has neither of the two title
    columns: the run ends in ERROR and writes neither file. *)
Example run_example_no_title_column :
  fst (run LocationFilter.fallback_lokasi_keywords to_datetime_by_first_cell
           netloc_example feed_example "1d"
           (Some (mkTable false false true [])) (Some ["banjir"])
           (mkFiles None None) world_example)
  = (ERROR "'judul'", mkFiles None None).
Proof. vm_compute. reflexivity. Qed.

End RunFacts.
